(** * The media synthesis pipeline of backend/server.js

    A shallow embedding of the video generation pipeline served by
    [POST /api/generate]: the template script synthesizer
    ([generateEnhancedScript]), the stock video resolver
    ([getPexelsVideoForLine]), the narration synthesizer ([generateVoice]),
    the ffmpeg composition ([createVideoWithSubtitles]) and the request
    handler that sequences them.

    Conventions.
    - A JavaScript string is a [string] (a sequence of 8-bit characters);
      case mapping and white space are those of ASCII.
    - A JavaScript number that the code computes with is a binary64
      [float]; counts and indices are [nat]; integral JSON fields are [Z].
    - [null]/[undefined] is [None]; truthiness of a string is
      non-emptiness.
    - The outside world (providers, file system, ffmpeg) is an explicit
      state; every external call is answered by an oracle indexed by the
      number of calls made so far, and thrown errors are values. *)

From Stdlib Require Import Floats Uint63 Ascii String.
From stdpp Require Import gmap strings list pretty.

(** ** JavaScript string primitives *)

Module Js.

Definition is_upper (c : ascii) : bool :=
  (65 <=? nat_of_ascii c) && (nat_of_ascii c <=? 90).

Definition lower_char (c : ascii) : ascii :=
  if is_upper c then ascii_of_nat (nat_of_ascii c + 32) else c.

(** [s.toLowerCase()] *)
Fixpoint toLowerCase (s : string) : string :=
  match s with
  | EmptyString => EmptyString
  | String c s' => String (lower_char c) (toLowerCase s')
  end.

(** [pat] is an initial segment of [s] *)
Fixpoint is_prefix (pat s : string) : bool :=
  match pat, s with
  | EmptyString, _ => true
  | String _ _, EmptyString => false
  | String a pat', String b s' => Ascii.eqb a b && is_prefix pat' s'
  end.

(** [s.startsWith(pat)] *)
Definition startsWith (s pat : string) : bool := is_prefix pat s.

(** [s.includes(pat)] *)
Fixpoint includes (s pat : string) : bool :=
  is_prefix pat s ||
  match s with
  | EmptyString => false
  | String _ s' => includes s' pat
  end.

(** [s.endsWith(pat)] *)
Fixpoint endsWith (s pat : string) : bool :=
  (s =? pat)%string ||
  match s with
  | EmptyString => false
  | String _ s' => endsWith s' pat
  end.

(** truthiness of a string value *)
Definition truthy (s : string) : bool := negb (s =? "")%string.

(** truthiness of a value that is a string, [null] or [undefined] *)
Definition truthy_opt (o : option string) : bool :=
  match o with
  | Some s => truthy s
  | None => false
  end.

Fixpoint drop (n : nat) (s : string) : string :=
  match n, s with
  | O, _ => s
  | S _, EmptyString => EmptyString
  | S n', String _ s' => drop n' s'
  end.

(** The first occurrence of [pat] in [s]: the text before it and the
    text after it. *)
Fixpoint find_first (s pat : string) : option (string * string) :=
  if is_prefix pat s then Some (EmptyString, drop (String.length pat) s)
  else match s with
       | EmptyString => None
       | String c s' =>
           match find_first s' pat with
           | Some (before, after) => Some (String c before, after)
           | None => None
           end
       end.

(** GetSubstitution of ECMA-262 for a string pattern (no capture
    groups): [$$], [$&], [$`] and [$'] are expanded in the replacement
    text, every other character stands for itself. *)
Fixpoint getSubstitution (matched before after repl : string) : string :=
  match repl with
  | EmptyString => EmptyString
  | String "$" (String "$" r) =>
      String "$" (getSubstitution matched before after r)
  | String "$" (String "&" r) =>
      matched +:+ getSubstitution matched before after r
  | String "$" (String "`" r) =>
      before +:+ getSubstitution matched before after r
  | String "$" (String "'" r) =>
      after +:+ getSubstitution matched before after r
  | String c r => String c (getSubstitution matched before after r)
  end.

(** [s.replace(pat, repl)] with a string pattern: only the first
    occurrence is replaced. *)
Definition replace (s pat repl : string) : string :=
  match find_first s pat with
  | None => s
  | Some (before, after) =>
      before +:+ getSubstitution pat before after repl +:+ after
  end.

Definition is_space (c : ascii) : bool :=
  match nat_of_ascii c with
  | 9 | 10 | 11 | 12 | 13 | 32 => true
  | _ => false
  end.

Fixpoint trimStart (s : string) : string :=
  match s with
  | EmptyString => EmptyString
  | String c s' => if is_space c then trimStart s' else s
  end.

Fixpoint trimEnd (s : string) : string :=
  match s with
  | EmptyString => EmptyString
  | String c s' =>
      let r := trimEnd s' in
      if is_space c && (r =? "")%string then EmptyString else String c r
  end.

(** [s.trim()] *)
Definition trim (s : string) : string := trimEnd (trimStart s).

Definition newline : ascii := "010"%char.

(** [s.split('\n')] *)
Fixpoint split_lines (s : string) : list string :=
  match s with
  | EmptyString => [EmptyString]
  | String c s' =>
      if Ascii.eqb c newline then EmptyString :: split_lines s'
      else match split_lines s' with
           | [] => [String c EmptyString]
           | h :: t => String c h :: t
           end
  end.

(** [l.join(sep)] *)
Definition join (sep : string) (l : list string) : string :=
  String.concat sep l.

(** [l.slice(0, n)] *)
Definition slice0 {A} (n : nat) (l : list A) : list A := take n l.

(** [l.includes(x)] on an array of strings *)
Definition array_includes (l : list string) (x : string) : bool :=
  bool_decide (x ∈ l).

(** [c] occurs in [s] *)
Fixpoint has_char (c : ascii) (s : string) : bool :=
  match s with
  | EmptyString => false
  | String d s' => Ascii.eqb d c || has_char c s'
  end.

Definition is_alnum (c : ascii) : bool :=
  let n := nat_of_ascii c in
  ((48 <=? n) && (n <=? 57)) || ((65 <=? n) && (n <=? 90)) ||
  ((97 <=? n) && (n <=? 122)).

(** [s.replace(/[^a-zA-Z0-9]/g, '')] *)
Fixpoint strip_non_alnum (s : string) : string :=
  match s with
  | EmptyString => EmptyString
  | String c s' =>
      if is_alnum c then String c (strip_non_alnum s')
      else strip_non_alnum s'
  end.

End Js.

(** ** Script synthesizer: [generateEnhancedScript] *)

Module Script.

(** A line of the [viralScripts] table: a plain string literal, or a
    template literal [`pre${productName}post`]. *)
Inductive TemplateLine :=
| Fixed (text : string)
| WithProduct (pre post : string).

Definition references_product (t : TemplateLine) : bool :=
  match t with
  | Fixed _ => false
  | WithProduct _ _ => true
  end.

(** Evaluation of the literal once [productName] is known. *)
Definition instantiate (productName : string) (t : TemplateLine) : string :=
  match t with
  | Fixed text => text
  | WithProduct pre post => pre +:+ productName +:+ post
  end.

Definition funny_beauty : list TemplateLine :=
  [ Fixed "LINE: My skin said 'who dis new phone?'";
    WithProduct "LINE: " " literally broke my mirror";
    Fixed "LINE: I'm glowing like a lightbulb now";
    Fixed "LINE: My friends think I got surgery";
    Fixed "LINE: Plot twist it actually works besties";
    Fixed "LINE: The glow up is absolutely unreal";
    Fixed "LINE: I'm basically a walking highlighter";
    Fixed "LINE: My confidence said thank you queen";
    Fixed "LINE: Your skin deserves this magic potion";
    Fixed "LINE: Don't walk RUN to get this" ].

Definition funny_tech : list TemplateLine :=
  [ Fixed "LINE: This gadget broke my brain cells";
    WithProduct "LINE: " " is from the year 3000";
    Fixed "LINE: My life just got a software update";
    Fixed "LINE: Why didn't anyone tell me sooner";
    Fixed "LINE: It's like having a personal robot";
    Fixed "LINE: My productivity went absolutely crazy";
    Fixed "LINE: Everyone's asking what my secret is";
    Fixed "LINE: This is not a drill people";
    Fixed "LINE: Your life needs this upgrade badly";
    Fixed "LINE: Trust me and thank me later" ].

Definition funny_fashion : list TemplateLine :=
  [ Fixed "LINE: This outfit said pick me";
    WithProduct "LINE: " " is absolutely iconic";
    Fixed "LINE: I'm serving looks and confidence";
    Fixed "LINE: People can't stop staring honestly";
    Fixed "LINE: My style game just leveled up";
    Fixed "LINE: The compliments are getting ridiculous";
    Fixed "LINE: I feel like a main character";
    Fixed "LINE: This is my new personality";
    Fixed "LINE: You need this in your life";
    Fixed "LINE: Get it before everyone else does" ].

Definition funny_food : list TemplateLine :=
  [ Fixed "LINE: This taste transported my soul";
    WithProduct "LINE: " " just changed my life";
    Fixed "LINE: I'm emotionally attached to this now";
    Fixed "LINE: My taste buds are having a party";
    Fixed "LINE: I bought ten more immediately";
    Fixed "LINE: This is my new obsession officially";
    Fixed "LINE: I can't eat anything else";
    Fixed "LINE: My friends steal this constantly";
    Fixed "LINE: You haven't lived until you try";
    Fixed "LINE: Order it right now seriously" ].

Definition exciting_beauty : list TemplateLine :=
  [ WithProduct "LINE: " " is absolutely life changing";
    Fixed "LINE: Results in just seven days guaranteed";
    Fixed "LINE: My skin transformation is completely insane";
    Fixed "LINE: The glow is totally unreal";
    Fixed "LINE: Everyone keeps asking my secret routine";
    Fixed "LINE: This revolutionized my entire skincare";
    Fixed "LINE: The before and after shocked everyone";
    Fixed "LINE: I cannot believe the dramatic difference";
    Fixed "LINE: Your skin will thank you forever";
    Fixed "LINE: Get yours now before complete sellout" ].

Definition exciting_tech : list TemplateLine :=
  [ WithProduct "LINE: " " is revolutionary technology";
    Fixed "LINE: This will change everything completely";
    Fixed "LINE: The performance is absolutely mind blowing";
    Fixed "LINE: I'm getting incredible results daily";
    Fixed "LINE: This solved all my problems";
    Fixed "LINE: The speed improvement is unreal";
    Fixed "LINE: Everyone needs this in their life";
    Fixed "LINE: This is the future right now";
    Fixed "LINE: Don't miss out on this game changer";
    Fixed "LINE: Order immediately while still available" ].

Definition trendy_default : list TemplateLine :=
  [ Fixed "LINE: POV you found the holy grail";
    WithProduct "LINE: " " hits different bestie";
    Fixed "LINE: This is giving main character energy";
    Fixed "LINE: The vibe check is absolutely unmatched";
    Fixed "LINE: Everyone's copying my aesthetic now";
    Fixed "LINE: My confidence just leveled up significantly";
    Fixed "LINE: This is not a want it's definitely need";
    Fixed "LINE: The compliments keep flowing in daily";
    Fixed "LINE: Trust the process and trust me";
    Fixed "LINE: Link in bio before it's gone" ].

Definition luxurious_default : list TemplateLine :=
  [ WithProduct "LINE: " " is pure luxury experience";
    Fixed "LINE: Quality that speaks for itself";
    Fixed "LINE: This is investment in yourself";
    Fixed "LINE: The craftsmanship is absolutely impeccable";
    Fixed "LINE: You deserve this level of excellence";
    Fixed "LINE: This elevates your entire lifestyle";
    Fixed "LINE: Premium quality meets perfect design";
    Fixed "LINE: This is what success looks like";
    Fixed "LINE: Treat yourself like royalty today";
    Fixed "LINE: Experience luxury that lasts lifetime" ].

(** The object literal [viralScripts], before its template literals are
    evaluated: mood, then category. *)
Definition scriptTemplates : gmap string (gmap string (list TemplateLine)) :=
  {[ "funny" := {[ "beauty" := funny_beauty; "tech" := funny_tech;
                   "fashion" := funny_fashion; "food" := funny_food ]};
     "exciting" := {[ "beauty" := exciting_beauty; "tech" := exciting_tech ]};
     "trendy" := {[ "default" := trendy_default ]};
     "luxurious" := {[ "default" := luxurious_default ]} ]}.

(** [viralScripts] as the function body builds it. Property lookup also
    walks the prototype chain, which only the moods "constructor" and
    "__proto__" reach; neither object has a category or [default]
    property, so both end at [viralScripts.trendy.default], as the
    absent mood does here. *)
Definition viralScripts (productName : string)
  : gmap string (gmap string (list string)) :=
  (λ byCategory : gmap string (list TemplateLine),
     (λ script : list TemplateLine, instantiate productName <$> script)
       <$> byCategory) <$> scriptTemplates.

(** The keyword cascade that determines the product category. *)
Definition category (productName : string) : string :=
  let product := Js.toLowerCase productName in
  if Js.includes product "serum" || Js.includes product "cream" ||
     Js.includes product "skincare" || Js.includes product "beauty" ||
     Js.includes product "glow" || Js.includes product "face"
  then "beauty"
  else if Js.includes product "tech" || Js.includes product "gadget" ||
          Js.includes product "phone" || Js.includes product "laptop" ||
          Js.includes product "device"
  then "tech"
  else if Js.includes product "clothes" || Js.includes product "dress" ||
          Js.includes product "shirt" || Js.includes product "fashion" ||
          Js.includes product "style"
  then "fashion"
  else if Js.includes product "food" || Js.includes product "snack" ||
          Js.includes product "drink" || Js.includes product "recipe" ||
          Js.includes product "meal"
  then "food"
  else "default".

(** [a || b] on a value that is an object or [undefined] *)
Definition or_else {A} (a : option A) (b : A) : A :=
  match a with
  | Some x => x
  | None => b
  end.

(** [moodScripts[category] || moodScripts.default ||
    viralScripts.trendy.default] with
    [moodScripts = viralScripts[mood.toLowerCase()] || viralScripts.trendy] *)
Definition selectedScript (productName mood : string) : list string :=
  let scripts := viralScripts productName in
  let trendy := or_else (scripts !! "trendy") ∅ in
  let moodScripts := or_else (scripts !! Js.toLowerCase mood) trendy in
  or_else (moodScripts !! category productName)
    (or_else (moodScripts !! "default")
       (or_else (trendy !! "default") [])).

Definition placeholder : string := "${productName}".

(** The lines of the script before they are joined. *)
Definition scriptLines (productName mood : string) : list string :=
  (λ line, Js.replace line placeholder productName)
    <$> selectedScript productName mood.

Definition generateEnhancedScript (productName mood language : string)
  : string :=
  Js.join (String Js.newline "") (scriptLines productName mood).

(** The same selection on the table of literals. *)
Definition selectedTemplate (cat mood : string) : list TemplateLine :=
  let trendy := or_else (scriptTemplates !! "trendy") ∅ in
  let moodScripts := or_else (scriptTemplates !! Js.toLowerCase mood) trendy in
  or_else (moodScripts !! cat)
    (or_else (moodScripts !! "default")
       (or_else (trendy !! "default") [])).

(** [fullScript.split('\n').filter(l => l.startsWith('LINE:'))
      .map(l => l.replace('LINE:', '').trim()).slice(0, 10)] *)
Definition textOverlays (fullScript : string) : list string :=
  Js.slice0 10
    ((λ line, Js.trim (Js.replace line "LINE:" ""))
       <$> filter (λ line, Js.startsWith line "LINE:" = true)
             (Js.split_lines fullScript)).

End Script.

(** ** Errors, the outside world and the pipeline monad *)

Set Warnings "-inexact-float,-clear-no-such-hyp".

Module World.

(** Where an [Error] object was created. The handler only ever looks at
    [message]; [kind] names the throw site. *)
Inductive ErrorKind :=
| TypeError              (* a property read on [undefined] *)
| AiProvidersFailed      (* generateAiContent *)
| PexelsKeyMissing       (* getPexelsVideoForLine, before its try block *)
| TransportError         (* axios *)
| ScriptTooShort         (* fewer than 8 overlay lines *)
| NoAssetsFound          (* no video url after primary and fallback searches *)
| VoiceGenerationFailed  (* generateVoice *)
| RenderError.           (* the 'error' event of ffmpeg *)

Record Error := mkError { kind : ErrorKind; message : string }.

(** One candidate of a Pexels search response. The JSON schema of the
    provider makes [duration] an integral number of seconds and
    [video_files] an array; an absent [link] is the empty string. *)
Record VideoFile := mkFile { quality : string; link : string }.
Record Video := mkVideo { id : Z; duration : Z; video_files : list VideoFile }.

(** [res.data]: the [videos] property may be missing. *)
Record SearchData := mkData { videos : option (list Video) }.

(** A filter of the ffmpeg filter graph, with the text it stands for:
    - [VideoChain i d]:
      [[i:v]scale=1080:1920:force_original_aspect_ratio=increase,crop=1080:1920,setsar=1,trim=duration=d,setpts=PTS-STARTPTS[vi]]
    - [Concat n]: [[v0]...[v(n-1)]concat=n=n:v=1:a=0[outv]]
    - [Volume i g d out]: [[i:a]volume=g,atrim=duration=d[out]]
    - [Amix a b n mode out]: [[a][b]amix=inputs=n:duration=mode[out]] *)
Inductive Filter :=
| VideoChain (input : nat) (trim : float)
| Concat (n : nat)
| Volume (input : nat) (gain : float) (atrim : float) (out : string)
| Amix (in1 in2 : string) (inputs : nat) (duration : string) (out : string).

(** What is handed to ffmpeg by [.input], [.complexFilter],
    [.outputOptions] and [.save]. *)
Record FfmpegCommand := mkCommand {
  inputs : list string;
  complexFilter : list Filter;
  outputOptions : list string;
  outputPath : string
}.

(** External calls, in the order they are made. *)
Inductive Call :=
| GoogleGenerate (prompt : string)
| OpenAiChat (prompt : string)
| PexelsSearch (query : string)
| ElevenLabsSpeech (voiceId text : string)
| HttpGet (url : string)
| FfmpegRun (cmd : FfmpegCommand)
| Unlink (path : string).

(** The environment of the server process. An oracle takes the number
    of external calls made before this one, so the same request may be
    answered differently each time; [inl msg] is a thrown error. *)
Record Env := mkEnv {
  pexelsApiKey : option string;
  openaiConfigured : bool;
  google : nat → string → string + string;
  openai : nat → string → string + string;
  pexels : nat → string → string + SearchData;
  elevenlabs : nat → string → string → string + unit;
  http_get : nat → string → string + unit;
  ffmpeg : nat → FfmpegCommand → string + unit;
  unlink_ok : nat → string → bool;
  musicDir : option (list string);
  random : nat → nat;
  now : Z;
  tmpdir : string;
  dirname : string
}.

Record State := mkState {
  calls : list Call;       (* most recent last *)
  files : gset string      (* paths that exist on disk *)
}.

Definition clock (w : State) : nat := length (calls w).

Definition record (c : Call) (w : State) : State :=
  mkState (calls w ++ [c]) (files w).

Definition write_file (path : string) (w : State) : State :=
  mkState (calls w) ({[ path ]} ∪ files w).

Definition remove_file (path : string) (w : State) : State :=
  mkState (calls w) (files w ∖ {[ path ]}).

(** A computation that may throw and that acts on the world. *)
Definition M (A : Type) : Type := State → (Error + A) * State.

Definition ret {A} (a : A) : M A := λ w, (inr a, w).

Definition throw {A} (e : Error) : M A := λ w, (inl e, w).

Definition bind {A B} (m : M A) (k : A → M B) : M B :=
  λ w, match m w with
       | (inr a, w') => k a w'
       | (inl e, w') => (inl e, w')
       end.

(** [try { m } catch (e) { ... }], with the outcome as a value. *)
Definition attempt {A} (m : M A) : M (Error + A) :=
  λ w, let '(r, w') := m w in (inr r, w').

(** One external call: logged, then answered by the oracle. *)
Definition call {A} (c : Call) (answer : nat → string + A) (k : ErrorKind)
  : M A :=
  λ w, match answer (clock w) with
       | inr a => (inr a, record c w)
       | inl msg => (inl (mkError k msg), record c w)
       end.

Definition modify (f : State → State) : M unit := λ w, (inr tt, f w).

#[global] Instance M_ret : MRet M := @ret.
#[global] Instance M_bind : MBind M := λ A B k m, bind m k.

(** [path.join(a, b)] on already normalised segments *)
Definition path_join (a b : string) : string := a +:+ "/" +:+ b.

Definition dq : string := String (ascii_of_nat 34) EmptyString.

End World.

Export World.

(** Unfolds the operations of the monad. *)
Ltac exec :=
  unfold mbind, M_bind, bind, mret, M_ret, ret, attempt, throw, call, modify
    in *; cbn [fst snd] in *.

(** ** The stages of the pipeline *)

Module Pipeline.
Section WithEnv.

Context (env : Env).

(** *** Text generation: [generateAiContent] *)

Definition askOpenAi (prompt : string) : M string :=
  if openaiConfigured env
  then call (OpenAiChat prompt) (λ k, openai env k prompt) AiProvidersFailed
  else throw (mkError AiProvidersFailed
                "All AI providers failed or are not configured.").

Definition generateAiContent (prompt : string) (useGoogleFirst : bool)
  : M string :=
  if useGoogleFirst then
    r ← attempt (call (GoogleGenerate prompt) (λ k, google env k prompt)
                   AiProvidersFailed);
    match r with
    | inr text => mret text
    | inl _ => askOpenAi prompt
    end
  else askOpenAi prompt.

(** *** Voice selection: [getVoiceForProduct] *)

(** [Object.entries(VOICE_MAPPING)], in insertion order. *)
Definition VOICE_MAPPING : list (string * string) :=
  [ ("tech", "EXAVITQu4vr4xnSDxMaL");
    ("gadgets", "pNInz6obpgDQGcFmaJgB");
    ("electronics", "VR6AewLTigWG4xSOukaG");
    ("automotive", "nPczCjzI2devNBz1zQrb");
    ("sports", "EXAVITQu4vr4xnSDxMaL");
    ("beauty", "21m00Tcm4TlvDq8ikWAM");
    ("skincare", "21m00Tcm4TlvDq8ikWAM");
    ("fashion", "LcfcDJNUP1GQjkzn1xUU");
    ("clothing", "LcfcDJNUP1GQjkzn1xUU");
    ("jewelry", "21m00Tcm4TlvDq8ikWAM");
    ("food", "LcfcDJNUP1GQjkzn1xUU");
    ("snacks", "LcfcDJNUP1GQjkzn1xUU");
    ("health", "21m00Tcm4TlvDq8ikWAM");
    ("fitness", "LcfcDJNUP1GQjkzn1xUU");
    ("home", "LcfcDJNUP1GQjkzn1xUU");
    ("kitchen", "21m00Tcm4TlvDq8ikWAM");
    ("default", "21m00Tcm4TlvDq8ikWAM") ].

Definition getVoiceForProduct (productName : string) : string :=
  let product := Js.toLowerCase productName in
  match List.find (λ entry, Js.includes product entry.1) VOICE_MAPPING with
  | Some entry => entry.2
  | None => "21m00Tcm4TlvDq8ikWAM"
  end.

(** *** Asset resolver: [getPexelsVideoForLine] *)

(** [v.duration >= 8 && v.duration <= 40] *)
Definition in_window (v : Video) : bool :=
  (8 <=? duration v)%Z && (duration v <=? 40)%Z.

(** [f.quality === 'hd' && f.link] *)
Definition is_hd (f : VideoFile) : bool :=
  (quality f =? "hd")%string && Js.truthy (link f).

(** [!res.data.videos || res.data.videos.length === 0] *)
Definition no_videos (d : SearchData) : bool :=
  match videos d with
  | Some (_ :: _) => false
  | _ => true
  end.

(** The selection made on the response that is finally kept. *)
Definition pickVideo (d : SearchData) : option string :=
  match videos d with
  | Some (v :: vs) =>
      match List.find in_window (v :: vs) with
      | Some video =>
          match List.find is_hd (video_files video) with
          | Some hdVideo => Some (link hdVideo)
          | None => None
          end
      | None => None
      end
  | _ => None
  end.

(** [axios.get('https://api.pexels.com/videos/search', ...)], portrait,
    20 per page, [min_duration] 8 and [max_duration] 40. *)
Definition searchVideos (query : string) : M SearchData :=
  call (PexelsSearch query) (λ k, pexels env k query) TransportError.

Definition getPexelsVideoForLine (visualDescription productName : string)
  : M (option string) :=
  if negb (Js.truthy_opt (pexelsApiKey env))
  then throw (mkError PexelsKeyMissing "Pexels API Key is missing.")
  else
    r ← attempt (
          res ← searchVideos (productName +:+ " " +:+ visualDescription);
          res ← (if no_videos res then searchVideos visualDescription
                  else mret res);
          mret (pickVideo res));
    match r with
    | inr found => mret found
    | inl _ => mret None
    end.

(** *** Narration synthesizer: [generateVoice] *)

Definition generateVoice (text language voiceId : string) (timestamp : Z)
  : M string :=
  r ← attempt (call (ElevenLabsSpeech voiceId text)
                 (λ k, elevenlabs env k voiceId text) TransportError);
  match r with
  | inr _ =>
      let tempFilePath :=
        path_join (tmpdir env) ("voice-" +:+ pretty timestamp +:+ ".mp3") in
      _ ← modify (write_file tempFilePath);
      mret tempFilePath
  | inl error =>
      throw (mkError VoiceGenerationFailed
               ("Failed to create voiceover: " +:+ message error))
  end.

(** *** Composition planner and renderer: [createVideoWithSubtitles] *)

Definition totalDuration : float := 25.

Definition number_of_nat (n : nat) : float :=
  PrimFloat.of_uint63 (Uint63.of_Z (Z.of_nat n)).

(** [totalDuration / downloadedFiles.length] *)
Definition segmentDuration (n : nat) : float :=
  (totalDuration / number_of_nat n)%float.

Definition videoFilters (n : nat) : list Filter :=
  (λ i, VideoChain i (segmentDuration n)) <$> seq 0 n.

(** The audio filters and the stream mapping they add. *)
Definition audioFilters (voiceAudioPath customMusicPath : option string)
    (audioIndex : nat) : list Filter * list string :=
  if Js.truthy_opt voiceAudioPath && Js.truthy_opt customMusicPath then
    ([ Volume audioIndex 1.2 totalDuration "voice";
       Volume (audioIndex + 1) 0.15 totalDuration "music";
       Amix "voice" "music" 2 "shortest" "outa" ],
     [ "-map"; "[outa]" ])
  else if Js.truthy_opt voiceAudioPath then
    ([ Volume audioIndex 1.1 totalDuration "outa" ], [ "-map"; "[outa]" ])
  else if Js.truthy_opt customMusicPath then
    ([ Volume audioIndex 0.4 totalDuration "outa" ], [ "-map"; "[outa]" ])
  else ([], []).

Definition encodingOptions : list string :=
  [ "-c:v"; "libx264"; "-preset"; "fast"; "-crf"; "23"; "-c:a"; "aac";
    "-b:a"; "128k"; "-ar"; "44100"; "-t"; "25"; "-movflags"; "+faststart";
    "-pix_fmt"; "yuv420p" ].

Definition input_if_present (path : option string) : list string :=
  match path with
  | Some p => if Js.truthy p then [p] else []
  | None => []
  end.

Definition buildCommand (downloadedFiles : list string)
    (voiceAudioPath customMusicPath : option string) (outputPath : string)
  : FfmpegCommand :=
  let n := length downloadedFiles in
  let audio := audioFilters voiceAudioPath customMusicPath n in
  {| inputs := downloadedFiles ++ input_if_present voiceAudioPath
                 ++ input_if_present customMusicPath;
     complexFilter := videoFilters n ++ [Concat n] ++ audio.1;
     outputOptions := ["-map"; "[outv]"] ++ audio.2 ++ encodingOptions;
     outputPath := outputPath |}.

(** The download loop: [clip-i.mp4] in the temporary directory. *)
Fixpoint downloadAll (videoUrls : list string) (i : nat)
    (downloadedFiles : list string) : M (list string) :=
  match videoUrls with
  | [] => mret downloadedFiles
  | url :: rest =>
      _ ← call (HttpGet url) (λ k, http_get env k url) TransportError;
      let inputPath :=
        path_join (tmpdir env) ("clip-" +:+ pretty i +:+ ".mp4") in
      _ ← modify (write_file inputPath);
      downloadAll rest (S i) (downloadedFiles ++ [inputPath])
  end.

(** [await fsp.unlink(path).catch(() => {})] *)
Definition unlink (path : string) : M unit :=
  λ w, let w' := record (Unlink path) w in
       (inr tt, if unlink_ok env (clock w) path then remove_file path w'
                else w').

Fixpoint unlinkAll (paths : list string) : M unit :=
  match paths with
  | [] => mret tt
  | file :: rest => _ ← unlink file; unlinkAll rest
  end.

(** The 'end' handler. *)
Definition cleanup (downloadedFiles : list string)
    (voiceAudioPath : option string) : M unit :=
  _ ← unlinkAll downloadedFiles;
  match voiceAudioPath with
  | Some p => if Js.truthy p then unlink p else mret tt
  | None => mret tt
  end.

Definition outputFilename (productName : string) (timestamp : Z) : string :=
  "tiktok-" +:+ Js.strip_non_alnum productName +:+ "-" +:+ pretty timestamp
    +:+ ".mp4".

(** The promise: [inr] is [resolve], [inl] is [reject]. A failed
    download and the 'error' event of ffmpeg both reject and do nothing
    else. *)
Definition createVideoWithSubtitles (videoUrls textOverlays : list string)
    (voiceAudioPath customMusicPath : option string)
    (includeSubtitles : bool) (timestamp : Z) (productName : string)
  : M string :=
  let videosDir := path_join (path_join (dirname env) "public") "videos" in
  let outputPath := path_join videosDir (outputFilename productName timestamp) in
  downloadedFiles ← downloadAll videoUrls 0 [];
  let cmd :=
    buildCommand downloadedFiles voiceAudioPath customMusicPath outputPath in
  _ ← call (FfmpegRun cmd) (λ k, ffmpeg env k cmd) RenderError;
  _ ← modify (write_file outputPath);
  _ ← cleanup downloadedFiles voiceAudioPath;
  mret ("/videos/" +:+ outputFilename productName timestamp).

End WithEnv.
End Pipeline.

(** ** The request handler: [app.post('/api/generate')] *)

Module Handler.

(** [req.body]; an absent field is [None]. *)
Record Request := mkRequest {
  productName : option string;
  productUrl : option string;
  mood : option string;
  language : option string;
  audioOption : option string;
  includeSubtitles : option bool
}.

(** The two arrays the asset stage fills. *)
Record Assets := mkAssets {
  videoUrls : list string;
  videoSearchTerms : list string
}.

Record Metadata := mkMetadata {
  voiceId : string;
  metaMood : string;
  subtitles : bool;
  totalLines : nat;
  videoClips : nat
}.

Record Payload := mkPayload {
  videoUrl : string;
  script : string;
  scriptLines : list string;
  searchTerms : list string;
  metadata : Metadata
}.

(** [res.json(...)] with status 200, or [res.status(500).json(...)]. *)
Inductive Response :=
| Success (payload : Payload)
| Failure (userMessage : string) (error : Error) (timestamp : Z).

(** [a || b] where [a] may be absent and [b] is a string *)
Definition or_string (a : option string) (b : string) : string :=
  match a with
  | Some s => if Js.truthy s then s else b
  | None => b
  end.

(** [productName || productUrl || 'Amazing Product'] *)
Definition finalProductName (req : Request) : string :=
  or_string (productName req) (or_string (productUrl req) "Amazing Product").

Definition nl : string := String Js.newline EmptyString.

Definition visualPrompt (finalProductName line mood : string) : string :=
  "Create a specific visual search term for Pexels that shows " +:+ dq
    +:+ finalProductName +:+ dq +:+ " related to this script line: " +:+ dq
    +:+ line +:+ dq +:+ ". " +:+ nl
    +:+ "            " +:+ nl
    +:+ "Give me 3-4 keywords that would find videos showing:" +:+ nl
    +:+ "- The actual product " +:+ dq +:+ finalProductName +:+ dq +:+ nl
    +:+ "- People using or enjoying this product" +:+ nl
    +:+ "- The lifestyle/emotion from the script line" +:+ nl
    +:+ "- " +:+ mood +:+ " mood visuals" +:+ nl
    +:+ nl
    +:+ "Only return keywords, no explanation.".

Definition fallbackSearches (finalProductName mood : string) : list string :=
  [ finalProductName +:+ " review";
    finalProductName +:+ " unboxing";
    finalProductName +:+ " lifestyle";
    mood +:+ " " +:+ finalProductName;
    "people using " +:+ finalProductName;
    finalProductName +:+ " benefits";
    finalProductName +:+ " showcase" ].

Definition noVideosMessage (finalProductName : string) : string :=
  "Could not find any videos related to " +:+ dq +:+ finalProductName +:+ dq
    +:+ ". Try a different product name or check Pexels API.".

Definition push_url (url : string) (a : Assets) : Assets :=
  mkAssets (videoUrls a ++ [url]) (videoSearchTerms a).

Definition push_term (term : string) (a : Assets) : Assets :=
  mkAssets (videoUrls a) (videoSearchTerms a ++ [term]).

(** [videoUrls.slice(0, 5)], the first argument of
    [createVideoWithSubtitles] *)
Definition clipsToRender (videoUrls : list string) : list string :=
  Js.slice0 5 videoUrls.

(** [f.endsWith('.wav') || f.endsWith('.mp3') || f.endsWith('.m4a')] *)
Definition is_music_file (f : string) : bool :=
  Js.endsWith f ".wav" || Js.endsWith f ".mp3" || Js.endsWith f ".m4a".

(** [${productName || productUrl}] inside a template literal *)
Definition shown_subject (req : Request) : string :=
  let shown (o : option string) := default "undefined" o in
  match productName req with
  | Some s => if Js.truthy s then s else shown (productUrl req)
  | None => shown (productUrl req)
  end.

(** The message built in the handler's [catch]. *)
Definition errorMessage (req : Request) (error : Error) : string :=
  let m := message error in
  "TikTok video generation failed: " +:+
  (if Js.includes m "script" then
     "Could not generate proper 25-second script. Try different mood or product."
   else if Js.includes m "Pexels" || Js.includes m "videos" then
     "No videos found for " +:+ dq +:+ shown_subject req +:+ dq
       +:+ ". Try a more common product name."
   else if Js.includes m "ElevenLabs" || Js.includes m "voice" then
     "Voice generation failed. Check ElevenLabs API key and quota."
   else if Js.includes m "FFmpeg" then
     "Video processing failed. Check FFmpeg installation."
   else m).

Section WithEnv.

Context (env : Env).

(** One iteration of the per-line loop. Its [try] block covers both the
    keyword generation and the search; what was pushed before a throw
    stays pushed. *)
Definition primaryStep (finalProductName mood line : string) (acc : Assets)
  : M Assets :=
  r ← attempt (Pipeline.generateAiContent env
                 (visualPrompt finalProductName line mood) true);
  match r with
  | inl _ => mret acc
  | inr text =>
      let visualDescription := Js.trim text in
      let acc := push_term visualDescription acc in
      r ← attempt (Pipeline.getPexelsVideoForLine env visualDescription
                     finalProductName);
      match r with
      | inr (Some videoUrl) =>
          if Js.truthy videoUrl then mret (push_url videoUrl acc)
          else mret acc
      | _ => mret acc
      end
  end.

Fixpoint primaryLoop (finalProductName mood : string) (lines : list string)
    (acc : Assets) : M Assets :=
  match lines with
  | [] => mret acc
  | line :: rest =>
      acc ← primaryStep finalProductName mood line acc;
      primaryLoop finalProductName mood rest acc
  end.

(** [if (fallbackVideo && !videoUrls.includes(fallbackVideo)) push] *)
Definition add_fallback (fallbackVideo : option string)
    (videoUrls : list string) : list string :=
  match fallbackVideo with
  | Some v =>
      if Js.truthy v && negb (Js.array_includes videoUrls v)
      then videoUrls ++ [v] else videoUrls
  | None => videoUrls
  end.

Fixpoint fallbackLoop (finalProductName : string) (searches : list string)
    (videoUrls : list string) : M (list string) :=
  match searches with
  | [] => mret videoUrls
  | search :: rest =>
      if 5 <=? length videoUrls then mret videoUrls
      else
        fallbackVideo ←
          Pipeline.getPexelsVideoForLine env search finalProductName;
        fallbackLoop finalProductName rest
          (add_fallback fallbackVideo videoUrls)
  end.

(** Step 2 of the handler up to, and without, the emptiness check. *)
Definition collectAssets (finalProductName mood : string)
    (textOverlays : list string) : M Assets :=
  acc ← primaryLoop finalProductName mood
          (take (min (length textOverlays) 5) textOverlays) (mkAssets [] []);
  if length (videoUrls acc) <? 3 then
    urls ← fallbackLoop finalProductName
             (fallbackSearches finalProductName mood) (videoUrls acc);
    mret (mkAssets urls (videoSearchTerms acc))
  else mret acc.

(** The background music: a random file of [public/music]. *)
Definition selectMusic (audioOption : string) : M (option string) :=
  λ w,
    if Js.includes audioOption "music" then
      match musicDir env with
      | Some listing =>
          let musicFiles := List.filter is_music_file listing in
          match musicFiles with
          | [] => (inr None, w)
          | _ :: _ =>
              let i := random env (clock w) `mod` length musicFiles in
              let randomMusic := nth i musicFiles EmptyString in
              let dir := path_join (path_join (dirname env) "public") "music" in
              (inr (Some (path_join dir randomMusic)), w)
          end
      | None => (inr None, w)
      end
    else (inr None, w).

Definition narrate (audioOption language voiceId : string)
    (textOverlays : list string) (timestamp : Z) : M (option string) :=
  if Js.includes audioOption "voice" then
    path ← Pipeline.generateVoice env
              (Js.join ". " textOverlays +:+ ".") language voiceId timestamp;
    mret (Some path)
  else mret None.

(** Steps 3 and 4: audio, then the video. *)
Definition produce (finalProductName mood language audioOption : string)
    (includeSubtitles : bool) (timestamp : Z) (fullScript : string)
    (textOverlays : list string) (assets : Assets) : M Payload :=
  let selectedVoiceId := Pipeline.getVoiceForProduct finalProductName in
  customMusicPath ← selectMusic audioOption;
  voiceAudioPath ←
    narrate audioOption language selectedVoiceId textOverlays timestamp;
  finalVideoUrl ←
    Pipeline.createVideoWithSubtitles env
      (clipsToRender (videoUrls assets)) textOverlays voiceAudioPath
      customMusicPath includeSubtitles timestamp finalProductName;
  mret {| videoUrl := "http://localhost:3001" +:+ finalVideoUrl;
          script := fullScript;
          scriptLines := textOverlays;
          searchTerms := videoSearchTerms assets;
          metadata :=
            {| voiceId := selectedVoiceId;
               metaMood := mood;
               subtitles := includeSubtitles;
               totalLines := length textOverlays;
               videoClips := min (length (videoUrls assets)) 5 |} |}.

(** Steps 2 to 4: what the handler does once it has its overlay lines. *)
Definition afterScript (finalProductName mood language audioOption : string)
    (includeSubtitles : bool) (timestamp : Z) (fullScript : string)
    (textOverlays : list string) : M Payload :=
  assets ← collectAssets finalProductName mood textOverlays;
  if length (videoUrls assets) =? 0 then
    throw (mkError NoAssetsFound (noVideosMessage finalProductName))
  else
    produce finalProductName mood language audioOption includeSubtitles
      timestamp fullScript textOverlays assets.

(** The body of the handler's [try] block for a given subject. An
    absent [mood] makes [mood.toLowerCase()] throw inside the script
    synthesizer. *)
Definition generate (finalProductName : string) (req : Request)
    (timestamp : Z) : M Payload :=
  let language := default "en" (language req) in
  let audioOption := default "voice+music" (audioOption req) in
  let includeSubtitles := default true (includeSubtitles req) in
  match mood req with
  | None =>
      throw (mkError TypeError
               "Cannot read properties of undefined (reading 'toLowerCase')")
  | Some mood =>
      let fullScript :=
        Script.generateEnhancedScript finalProductName mood language in
      let textOverlays := Script.textOverlays fullScript in
      if length textOverlays <? 8 then
        throw (mkError ScriptTooShort
                 "Script too short - need at least 8 lines for 25-second video")
      else
        afterScript finalProductName mood language audioOption
          includeSubtitles timestamp fullScript textOverlays
  end.

(** [res.json] in the [try] block or in the [catch] block. *)
Definition respond (req : Request) (timestamp : Z)
    (outcome : (Error + Payload) * State) : Response * State :=
  match outcome with
  | (inr payload, w') => (Success payload, w')
  | (inl error, w') => (Failure (errorMessage req error) error timestamp, w')
  end.

Definition handler (req : Request) (w : State) : Response * State :=
  let timestamp := now env in
  respond req timestamp (generate (finalProductName req) req timestamp w).

End WithEnv.
End Handler.

(** ** Vocabulary of the properties *)

Module Props.

Import Script Pipeline Handler.

(** A subject is a single line of text that does not itself spell the
    placeholder the synthesizer substitutes. *)
Definition valid_subject (productName : string) : Prop :=
  Js.has_char Js.newline productName = false ∧
  Js.includes productName placeholder = false.

(** What every line of the template table satisfies: it starts with
    the marker, holds no [$] and no line break, and the text after an
    interpolation starts with a character foreign to the placeholder. *)
Definition plain_text (s : string) : bool :=
  negb (Js.has_char "$" s) && negb (Js.has_char Js.newline s).

Definition line_ok (t : TemplateLine) : bool :=
  match t with
  | Fixed text => Js.startsWith text "LINE:" && plain_text text
  | WithProduct pre post =>
      Js.startsWith pre "LINE:" && plain_text pre && plain_text post &&
      match post with
      | EmptyString => true
      | String d _ => negb (Js.has_char d placeholder)
      end
  end.

Definition script_ok (t : list TemplateLine) : bool :=
  (length t =? 10) && forallb line_ok t.

(** A candidate "whose available encodings include the required
    quality tier". *)
Definition has_hd (v : Video) : bool := existsb is_hd (video_files v).

(** The selection as the specification words it: the first candidate
    that is in the window and has an HD encoding. *)
Definition firstQualifying (d : SearchData) : option string :=
  match List.find (λ v, in_window v && has_hd v) (default [] (videos d)) with
  | Some video => link <$> List.find is_hd (video_files video)
  | None => None
  end.

(** The trim lengths of the video chains of a command, in order. *)
Definition slices (cmd : FfmpegCommand) : list float :=
  omap (λ f, match f with VideoChain _ d => Some d | _ => None end)
    (complexFilter cmd).

(** Sum in binary64, left to right, as [reduce((a, b) => a + b, 0)]. *)
Definition sum_floats (l : list float) : float := fold_left PrimFloat.add l 0%float.

Definition is_audio_filter (f : Filter) : bool :=
  match f with
  | Volume _ _ _ _ | Amix _ _ _ _ _ => true
  | _ => false
  end.

(** The audio filters of a command. *)
Definition audio_part (cmd : FfmpegCommand) : list Filter :=
  List.filter is_audio_filter (complexFilter cmd).

Definition is_unlink (c : Call) : bool :=
  match c with
  | Unlink _ => true
  | _ => false
  end.

Definition is_render (c : Call) : bool :=
  match c with
  | FfmpegRun _ | HttpGet _ => true
  | _ => false
  end.

Definition is_lookup (c : Call) : bool :=
  match c with
  | GoogleGenerate _ | OpenAiChat _ | PexelsSearch _ => true
  | _ => false
  end.

(** The calls made between two states of the world. *)
Definition calls_since (w w' : State) : list Call :=
  drop (length (calls w)) (calls w').

(** [m] leaves the files alone and makes only calls that satisfy [P]. *)
Definition only_calls {A} (P : Call → bool) (m : M A) : Prop :=
  ∀ w, files (m w).2 = files w ∧
       ∃ added, calls (m w).2 = calls w ++ added ∧ forallb P added = true.

(** Every error [m] throws is of a kind in [K]. *)
Definition throws_only {A} (K : ErrorKind → Prop) (m : M A) : Prop :=
  ∀ w e w', m w = (inl e, w') → K (kind e).

Definition never_throws {A} (m : M A) : Prop :=
  ∀ w, ∃ a w', m w = (inr a, w').

(** The kinds of error the audio and video steps can end with. *)
Definition late_failure (k : ErrorKind) : Prop :=
  k = VoiceGenerationFailed ∨ k = TransportError ∨ k = RenderError.

End Props.

(** ** Sample environments and requests *)

Module Examples.

Import Handler.

Definition sd_only : Video :=
  mkVideo 1 12 [ mkFile "sd" "https://videos.example/1-sd.mp4" ].

Definition with_hd : Video :=
  mkVideo 2 15 [ mkFile "sd" "https://videos.example/2-sd.mp4";
                 mkFile "hd" "https://videos.example/2-hd.mp4" ].

Definition two_candidates : SearchData := mkData (Some [sd_only; with_hd]).

(** A server whose text, speech and download providers always
    succeed; the video search and ffmpeg are given. *)
Definition env_with (search : nat → string → string + SearchData)
    (render : nat → FfmpegCommand → string + unit) : Env :=
  {| pexelsApiKey := Some "pexels-key";
     openaiConfigured := false;
     google := λ _ _, inr "people unboxing product";
     openai := λ _ _, inl "not configured";
     pexels := search;
     elevenlabs := λ _ _ _, inr tt;
     http_get := λ _ _, inr tt;
     ffmpeg := render;
     unlink_ok := λ _ _, true;
     musicDir := Some ["calm.mp3"; "notes.txt"];
     random := λ k, k;
     now := 1700000000000;
     tmpdir := "/tmp";
     dirname := "/srv/backend" |}.

(** Every search returns the same single HD video. *)
Definition same_video_env : Env :=
  env_with (λ _ _, inr (mkData (Some [with_hd]))) (λ _ _, inr tt).

(** The search transport is down. *)
Definition offline_env : Env :=
  env_with (λ _ _, inl "Network Error") (λ _ _, inr tt).

(** Searches succeed, ffmpeg reports an error. *)
Definition render_fails_env : Env :=
  env_with (λ _ _, inr (mkData (Some [with_hd])))
    (λ _ _, inl "ffmpeg exited with code 1").

Definition fresh : State := mkState [] ∅.

Definition request (subject mood : option string) : Request :=
  mkRequest subject None mood None None None.

End Examples.

(** ** Vocabulary for the command that is run *)

Module Planned.

Import Pipeline Handler Props.

(** [path.join(tempDir, `clip-${i}.mp4`)], where the download loop
    writes its [i]-th file. *)
Definition clipPath (env : Env) (i : nat) : string :=
  path_join (tmpdir env) ("clip-" +:+ pretty i +:+ ".mp4").

Definition clipPaths (env : Env) (n : nat) : list string :=
  clipPath env <$> seq 0 n.

(** [outputPath] of [createVideoWithSubtitles]. *)
Definition videoOutputPath (env : Env) (productName : string) (timestamp : Z)
  : string :=
  path_join (path_join (path_join (dirname env) "public") "videos")
    (outputFilename productName timestamp).

(** The path of a track that is present (a truthy path). *)
Definition present (path : option string) : option string :=
  match path with
  | Some p => if Js.truthy p then Some p else None
  | None => None
  end.

Definition is_speech (c : Call) : bool :=
  match c with
  | ElevenLabsSpeech _ _ => true
  | _ => false
  end.

(** The commands ffmpeg was run on, oldest first. *)
Definition commandsRun (w : State) : list FfmpegCommand :=
  omap (λ c, match c with FfmpegRun cmd => Some cmd | _ => None end)
    (calls w).

(** The exact value of a finite binary64 number, counted in units of
    [2^-52]; [None] for infinities, NaN and finer values. *)
Definition in_ulps (f : float) : option Z :=
  match Prim2SF f with
  | S754_zero _ => Some 0%Z
  | S754_finite s m e =>
      if (-52 <=? e)%Z
      then Some ((if s then -1 else 1) * Z.pos m * 2 ^ (e + 52))%Z
      else None
  | _ => None
  end.

(** So many seconds, in the same unit. *)
Definition seconds (k : Z) : Z := (k * 2 ^ 52)%Z.

(** The exact sum of a list of durations, in the same unit. *)
Fixpoint exact_sum (l : list float) : option Z :=
  match l with
  | [] => Some 0%Z
  | f :: l' =>
      match in_ulps f, exact_sum l' with
      | Some x, Some y => Some (x + y)%Z
      | _, _ => None
      end
  end.

Definition three_urls : list string :=
  [ "https://videos.example/a.mp4"; "https://videos.example/b.mp4";
    "https://videos.example/c.mp4" ].

(** Seven resolved urls. *)
Definition seven_urls : list string :=
  [ "https://videos.example/a.mp4"; "https://videos.example/b.mp4";
    "https://videos.example/c.mp4"; "https://videos.example/d.mp4";
    "https://videos.example/e.mp4"; "https://videos.example/f.mp4";
    "https://videos.example/g.mp4" ].

End Planned.

(** ** Vocabulary for the remaining behaviour of the pipeline *)

Module Observed.

Import Script Pipeline Handler Props.

Definition is_ai (c : Call) : bool :=
  match c with
  | GoogleGenerate _ | OpenAiChat _ => true
  | _ => false
  end.

Definition is_search (c : Call) : bool :=
  match c with
  | PexelsSearch _ => true
  | _ => false
  end.

(** [m] appends to the call log, and only calls that satisfy [P]. *)
Definition logs_only {A} (P : Call → bool) (m : M A) : Prop :=
  ∀ w, ∃ added, calls (m w).2 = calls w ++ added ∧ forallb P added = true.

(** [m] appends at most [a] text generation calls and [s] searches, and
    nothing else. *)
Definition lookups_within {A} (a s : nat) (m : M A) : Prop :=
  ∀ w, ∃ added,
    calls (m w).2 = calls w ++ added ∧ forallb is_lookup added = true ∧
    length (List.filter is_ai added) ≤ a ∧
    length (List.filter is_search added) ≤ s.

(** The error [getPexelsVideoForLine] throws before its [try] block. *)
Definition keyMissing : Error :=
  mkError PexelsKeyMissing "Pexels API Key is missing.".

(** The [catch] message for a run that found no video. *)
Definition noVideosReport (req : Request) : string :=
  "TikTok video generation failed: No videos found for " +:+ dq
    +:+ shown_subject req +:+ dq +:+ ". Try a more common product name.".

End Observed.

(** ** More sample environments *)

Module Samples.

Import Handler Examples.

(** Only the searches for reviews and for lifestyle footage find a
    video, a different one each time. *)
Definition reviews_only_env : Env :=
  env_with
    (λ k q,
       if Js.includes q "review" || Js.includes q "lifestyle"
       then inr (mkData (Some
              [ mkVideo 7 20
                  [ mkFile "hd" ("https://videos.example/" +:+ pretty k) ] ]))
       else inr (mkData None))
    (λ _ _, inr tt).

(** A server without a Pexels key. *)
Definition keyless_env : Env :=
  {| pexelsApiKey := None;
     openaiConfigured := false;
     google := λ _ _, inr "people unboxing product";
     openai := λ _ _, inl "not configured";
     pexels := λ _ _, inr (mkData (Some [with_hd]));
     elevenlabs := λ _ _ _, inr tt;
     http_get := λ _ _, inr tt;
     ffmpeg := λ _ _, inr tt;
     unlink_ok := λ _ _, true;
     musicDir := None;
     random := λ k, k;
     now := 1700000000000;
     tmpdir := "/tmp";
     dirname := "/srv/backend" |}.

Definition glow : Request := request (Some "Glow Serum") (Some "funny").

Definition glow_overlays : list string :=
  Script.textOverlays (Script.generateEnhancedScript "Glow Serum" "funny" "en").

(** The value of a computation that did not throw. *)
Definition value_of {A} (d : A) (r : Error + A) : A :=
  match r with
  | inr a => a
  | inl _ => d
  end.

End Samples.

(** * Proofs *)

(** ** Strings *)

Module JsFacts.

Import Js.

Lemma prefix_cons (c d : ascii) (p s : string) :
  is_prefix (String c p) (String d s) = true ↔ c = d ∧ is_prefix p s = true.
Proof.
  simpl. by rewrite andb_true_iff, Ascii.eqb_eq.
Qed.

Lemma prefix_nil_r (p : string) :
  is_prefix p EmptyString = true → p = EmptyString.
Proof. by destruct p. Qed.

Lemma prefix_app_self (p s : string) : is_prefix p (p +:+ s) = true.
Proof.
  induction p as [|c p IH]; [done|].
  change (String c p +:+ s) with (String c (p +:+ s)).
  apply prefix_cons. by split.
Qed.

Lemma prefix_app_r (q a b : string) :
  is_prefix q a = true → is_prefix q (a +:+ b) = true.
Proof.
  revert a. induction q as [|c q IH]; intros a H; [done|].
  destruct a as [|d a]; [done|].
  apply prefix_cons in H as [-> H].
  change (String d a +:+ b) with (String d (a +:+ b)).
  apply prefix_cons. split; [done|]. by apply IH.
Qed.

Lemma has_char_app (c : ascii) (a b : string) :
  has_char c (a +:+ b) = has_char c a || has_char c b.
Proof.
  induction a as [|d a IH]; [done|].
  change (String d a +:+ b) with (String d (a +:+ b)).
  simpl. rewrite IH. by rewrite orb_assoc.
Qed.

Lemma has_char_cons_false (c d : ascii) (s : string) :
  has_char c (String d s) = false ↔ d ≠ c ∧ has_char c s = false.
Proof.
  simpl. rewrite orb_false_iff. by rewrite Ascii.eqb_neq.
Qed.

(** A pattern whose first character does not occur cannot occur. *)
Lemma includes_no_first_char (c : ascii) (pat s : string) :
  has_char c s = false → includes s (String c pat) = false.
Proof.
  induction s as [|d s IH]; [done|].
  intros [Hne Hs]%has_char_cons_false.
  cbn [includes]. rewrite (IH Hs), orb_false_r.
  destruct (is_prefix (String c pat) (String d s)) eqn:E; [|done].
  apply prefix_cons in E as [-> _]. by destruct Hne.
Qed.

Lemma includes_skip_prefix (c : ascii) (pat pre s : string) :
  has_char c pre = false →
  includes (pre +:+ s) (String c pat) = includes s (String c pat).
Proof.
  induction pre as [|d pre IH]; [done|].
  intros [Hne Hpre]%has_char_cons_false.
  change (String d pre +:+ s) with (String d (pre +:+ s)).
  cbn [includes]. rewrite (IH Hpre).
  destruct (is_prefix (String c pat) (String d (pre +:+ s))) eqn:E; [|done].
  apply prefix_cons in E as [-> _]. by destruct Hne.
Qed.

(** An occurrence that starts in [p] cannot run into [post] when the
    first character of [post] is foreign to the pattern. *)
Lemma prefix_no_straddle (pat p post : string) :
  (∀ d post', post = String d post' → has_char d pat = false) →
  is_prefix pat (p +:+ post) = true → is_prefix pat p = true.
Proof.
  revert pat. induction p as [|x p IH]; intros pat Hpost H.
  - destruct pat as [|c pat]; [done|].
    destruct post as [|d post']; [done|].
    simpl in H. apply prefix_cons in H as [-> _].
    specialize (Hpost d post' eq_refl).
    apply has_char_cons_false in Hpost as [Hne _]. by destruct Hne.
  - destruct pat as [|c pat]; [done|].
    change (String x p +:+ post) with (String x (p +:+ post)) in H.
    apply prefix_cons in H as [-> H]. apply prefix_cons. split; [done|].
    apply IH; [|done].
    intros d post' ->. specialize (Hpost d post' eq_refl).
    by apply has_char_cons_false in Hpost as [_ ?].
Qed.

Lemma includes_sandwich (c : ascii) (pat pre p post : string) :
  has_char c pre = false → has_char c post = false →
  (∀ d post', post = String d post' → has_char d (String c pat) = false) →
  includes p (String c pat) = false →
  includes (pre +:+ p +:+ post) (String c pat) = false.
Proof.
  intros Hpre Hpost Hd Hp. rewrite includes_skip_prefix by done.
  induction p as [|x p IH].
  - by apply includes_no_first_char.
  - change (String x p +:+ post) with (String x (p +:+ post)).
    cbn [includes] in Hp |- *. apply orb_false_iff in Hp as [Hpre' Hrest].
    rewrite (IH Hrest), orb_false_r.
    destruct (is_prefix (String c pat) (String x (p +:+ post))) eqn:E; [|done].
    change (String x (p +:+ post)) with (String x p +:+ post) in E.
    apply prefix_no_straddle in E; [congruence|done].
Qed.

Lemma includes_app_mid (pre p post : string) :
  includes (pre +:+ p +:+ post) p = true.
Proof.
  induction pre as [|d pre IH].
  - change (EmptyString +:+ p +:+ post) with (p +:+ post).
    pose proof (prefix_app_self p post) as H.
    destruct (p +:+ post); cbn [includes]; by rewrite H.
  - change (String d pre +:+ p +:+ post) with (String d (pre +:+ p +:+ post)).
    cbn [includes]. rewrite IH. apply orb_true_r.
Qed.

Lemma find_first_absent (s pat : string) :
  includes s pat = false → find_first s pat = None.
Proof.
  induction s as [|d s IH]; cbn [includes find_first];
    intros [Hp Hr]%orb_false_iff; rewrite Hp; [done|].
  by rewrite (IH Hr).
Qed.

Lemma replace_absent (s pat repl : string) :
  includes s pat = false → replace s pat repl = s.
Proof. intros H. unfold replace. by rewrite find_first_absent. Qed.

(** A prefix in which the pattern cannot start lies before its first
    occurrence. *)
Lemma find_first_after_prefix (c : ascii) (pat q s before after : string) :
  has_char c q = false → is_prefix q s = true →
  find_first s (String c pat) = Some (before, after) →
  is_prefix q before = true.
Proof.
  revert q before. induction s as [|x s IH]; intros q before Hq Hs Hf.
  - by rewrite (prefix_nil_r _ Hs).
  - destruct q as [|y q]; [done|].
    apply prefix_cons in Hs as [-> Hs].
    apply has_char_cons_false in Hq as [Hne Hq].
    cbn [find_first] in Hf.
    destruct (is_prefix (String c pat) (String x s)) eqn:E.
    { apply prefix_cons in E as [-> _]. by destruct Hne. }
    destruct (find_first s (String c pat)) as [[before' after']|] eqn:E';
      [|done].
    injection Hf as <- <-. apply prefix_cons. split; [done|]. by eapply IH.
Qed.

(** Replacing a pattern keeps a prefix the pattern cannot start in. *)
Lemma replace_keeps_prefix (c : ascii) (pat q s repl : string) :
  has_char c q = false → is_prefix q s = true →
  is_prefix q (replace s (String c pat) repl) = true.
Proof.
  intros Hq Hs. unfold replace.
  destruct (find_first s (String c pat)) as [[before after]|] eqn:E; [|done].
  apply prefix_app_r. by eapply find_first_after_prefix.
Qed.

Lemma split_lines_nonempty (s : string) : split_lines s ≠ [].
Proof.
  induction s as [|c s IH]; [done|]. simpl.
  destruct (Ascii.eqb c newline); [done|]. by destruct (split_lines s).
Qed.

Lemma split_lines_single (s : string) :
  has_char newline s = false → split_lines s = [s].
Proof.
  induction s as [|c s IH]; [done|].
  intros [Hne Hs]%has_char_cons_false. simpl.
  apply Ascii.eqb_neq in Hne. rewrite Hne. by rewrite (IH Hs).
Qed.

Lemma split_lines_app (a b : string) :
  split_lines (a +:+ String newline b) = split_lines a ++ split_lines b.
Proof.
  induction a as [|c a IH]; [done|].
  change (String c a +:+ ?r) with (String c (a +:+ r)).
  cbn [split_lines]. rewrite IH.
  destruct (Ascii.eqb c newline); [done|].
  pose proof (split_lines_nonempty a). by destruct (split_lines a).
Qed.

(** The first piece of a text keeps a prefix that has no line break. *)
Lemma split_lines_head (q s : string) :
  has_char newline q = false → is_prefix q s = true →
  ∃ h t, split_lines s = h :: t ∧ is_prefix q h = true.
Proof.
  revert q. induction s as [|c s IH]; intros q Hq Hs.
  - rewrite (prefix_nil_r _ Hs). by exists EmptyString, [].
  - destruct q as [|y q].
    { pose proof (split_lines_nonempty (String c s)).
      destruct (split_lines (String c s)) as [|h t]; [done|]. by exists h, t. }
    apply prefix_cons in Hs as [-> Hs].
    apply has_char_cons_false in Hq as [Hne Hq].
    destruct (IH q Hq Hs) as (h & t & Hsplit & Hh).
    cbn [split_lines]. apply Ascii.eqb_neq in Hne. rewrite Hne, Hsplit.
    exists (String c h), t. split; [done|]. apply prefix_cons. by split.
Qed.

Lemma join_cons (sep x y : string) (l : list string) :
  join sep (x :: y :: l) = x +:+ sep +:+ join sep (y :: l).
Proof. done. Qed.

Lemma split_join (l : list string) :
  l ≠ [] → Forall (λ s, has_char newline s = false) l →
  split_lines (join (String newline EmptyString) l) = l.
Proof.
  induction l as [|x l IH]; [done|]. intros _ Hl.
  apply Forall_cons in Hl as [Hx Hl].
  destruct l as [|y l]; [by apply split_lines_single|].
  rewrite join_cons.
  change (String newline EmptyString +:+ ?r) with (String newline r).
  rewrite split_lines_app, (split_lines_single _ Hx), IH by done. done.
Qed.

End JsFacts.


(** ** The script synthesizer *)

Module ScriptFacts.

Import Js JsFacts Script Props.

Lemma table_ok :
  map_Forall (λ _ byCategory,
    map_Forall (λ _ t, script_ok t = true) (byCategory : gmap string _))
    scriptTemplates.
Proof.
  unfold scriptTemplates.
  repeat match goal with
    | |- map_Forall _ (<[_ := _]> _) => apply map_Forall_insert_2
    | |- map_Forall _ {[ _ := _ ]} => apply map_Forall_singleton
    | |- script_ok _ = true => vm_compute; reflexivity
    end.
Qed.
Lemma templates_ok (mood cat : string) byCategory t :
  scriptTemplates !! mood = Some byCategory →
  byCategory !! cat = Some t → script_ok t = true.
Proof.
  intros Hm Hc. pose proof (map_Forall_lookup_1 _ _ _ _ table_ok Hm) as H.
  by apply (map_Forall_lookup_1 _ _ _ _ H Hc).
Qed.
Lemma trendy_lookup :
  scriptTemplates !! "trendy" = Some {[ "default" := trendy_default ]}.
Proof. vm_compute. reflexivity. Qed.

Lemma selectedTemplate_ok (cat mood : string) :
  script_ok (selectedTemplate cat mood) = true.
Proof.
  unfold selectedTemplate. rewrite trendy_lookup. cbn [or_else].
  destruct (scriptTemplates !! toLowerCase mood) as [ms|] eqn:Hm; cbn [or_else].
  - destruct (ms !! cat) as [t|] eqn:Hc; cbn [or_else].
    { exact (templates_ok _ _ _ _ Hm Hc). }
    destruct (ms !! "default") as [t|] eqn:Hd; cbn [or_else].
    { exact (templates_ok _ _ _ _ Hm Hd). }
    by vm_compute.
  - destruct (({[ "default" := trendy_default ]} : gmap string _) !! cat)
      as [t|] eqn:Hc; cbn [or_else].
    { exact (templates_ok _ _ _ _ trendy_lookup Hc). }
    by vm_compute.
Qed.

Lemma selectedScript_template (productName mood : string) :
  selectedScript productName mood =
  instantiate productName <$> selectedTemplate (category productName) mood.
Proof.
  unfold selectedScript, selectedTemplate, viralScripts.
  rewrite !lookup_fmap.
  destruct (scriptTemplates !! "trendy") as [tr|];
    destruct (scriptTemplates !! toLowerCase mood) as [ms|];
    cbn [fmap option_fmap option_map or_else];
    rewrite ?lookup_fmap, ?lookup_empty;
    repeat match goal with
           | |- context [ ?m !! ?k ] =>
               destruct (m !! k); cbn [fmap option_fmap option_map or_else]
           end; done.
Qed.

Lemma selectedTemplate_length (cat mood : string) :
  length (selectedTemplate cat mood) = 10.
Proof.
  pose proof (selectedTemplate_ok cat mood) as H. unfold script_ok in H.
  apply andb_true_iff in H as [H _]. by apply Nat.eqb_eq in H.
Qed.

Lemma selectedTemplate_lines (cat mood : string) :
  Forall (λ t, line_ok t = true) (selectedTemplate cat mood).
Proof.
  pose proof (selectedTemplate_ok cat mood) as H. unfold script_ok in H.
  apply andb_true_iff in H as [_ H]. apply Forall_forall.
  intros t Ht. rewrite forallb_forall in H. apply H. by apply list_elem_of_In.
Qed.

Lemma plain_text_spec (s : string) :
  plain_text s = true ↔ has_char "$" s = false ∧ has_char newline s = false.
Proof.
  unfold plain_text. rewrite andb_true_iff, !negb_true_iff. done.
Qed.

Lemma line_marked (p : string) (t : TemplateLine) :
  line_ok t = true → startsWith (instantiate p t) "LINE:" = true.
Proof.
  destruct t as [text|pre post]; cbn [line_ok instantiate].
  - by intros [H _]%andb_true_iff.
  - intros [[[H _]%andb_true_iff _]%andb_true_iff _]%andb_true_iff.
    by apply prefix_app_r.
Qed.

(** The substitution pass never removes the marker. *)
Lemma replaced_line_marked (p : string) (t : TemplateLine) :
  line_ok t = true →
  startsWith (replace (instantiate p t) placeholder p) "LINE:" = true.
Proof.
  intros H. apply replace_keeps_prefix; [done|]. by apply line_marked.
Qed.

(** For a valid subject the substitution pass changes nothing: the
    template literals are already evaluated. *)
Lemma replace_instantiated (p : string) (t : TemplateLine) :
  valid_subject p → line_ok t = true →
  replace (instantiate p t) placeholder p = instantiate p t.
Proof.
  intros [_ Hp] H. apply replace_absent.
  destruct t as [text|pre post]; cbn [line_ok instantiate] in *.
  - apply andb_true_iff in H as [_ [H _]%plain_text_spec].
    by apply includes_no_first_char.
  - apply andb_true_iff in H as [[[_ [Hpre _]%plain_text_spec]%andb_true_iff
      [Hpost _]%plain_text_spec]%andb_true_iff Hd].
    apply includes_sandwich; [done..| |done].
    intros d post' ->. by apply negb_true_iff in Hd.
Qed.

Lemma instantiated_single_line (p : string) (t : TemplateLine) :
  valid_subject p → line_ok t = true →
  has_char newline (instantiate p t) = false.
Proof.
  intros [Hp _] H.
  destruct t as [text|pre post]; cbn [line_ok instantiate] in *.
  - by apply andb_true_iff in H as [_ [_ H]%plain_text_spec].
  - apply andb_true_iff in H as [[[_ [_ Hpre]%plain_text_spec]%andb_true_iff
      [_ Hpost]%plain_text_spec]%andb_true_iff _].
    by rewrite !has_char_app, Hpre, Hp, Hpost.
Qed.

Lemma instantiated_mentions (p : string) (t : TemplateLine) :
  references_product t = true → includes (instantiate p t) p = true.
Proof.
  destruct t as [text|pre post]; [done|]. intros _. apply includes_app_mid.
Qed.

Lemma scriptLines_valid (p mood : string) :
  valid_subject p →
  scriptLines p mood = instantiate p <$> selectedTemplate (category p) mood.
Proof.
  intros Hp. unfold scriptLines. rewrite selectedScript_template.
  rewrite <- list_fmap_compose. apply Forall_fmap_ext_1.
  eapply Forall_impl; [apply selectedTemplate_lines|].
  intros t Ht. by apply replace_instantiated.
Qed.

Lemma scriptLines_length (p mood : string) : length (scriptLines p mood) = 10.
Proof.
  unfold scriptLines. rewrite selectedScript_template, !length_fmap.
  apply selectedTemplate_length.
Qed.

Lemma scriptLines_marked (p mood : string) :
  Forall (λ line, startsWith line "LINE:" = true) (scriptLines p mood).
Proof.
  unfold scriptLines. rewrite selectedScript_template, <- list_fmap_compose.
  apply Forall_fmap. eapply Forall_impl; [apply selectedTemplate_lines|].
  intros t Ht. by apply replaced_line_marked.
Qed.

(** Every marked line contributes at least one marked piece, whatever
    line breaks it contains. *)
Lemma marked_pieces (ls : list string) :
  Forall (λ line, startsWith line "LINE:" = true) ls →
  length ls ≤
  length (filter (λ line, startsWith line "LINE:" = true)
            (split_lines (join (String newline EmptyString) ls))).
Proof.
  induction ls as [|x ls IH]; [simpl; lia|].
  intros [Hx Hls]%Forall_cons.
  destruct (split_lines_head "LINE:" x eq_refl Hx) as (h & t & Hsplit & Hh).
  destruct ls as [|y ls].
  - cbn [join String.concat]. rewrite Hsplit, filter_cons_True by done.
    simpl. lia.
  - rewrite join_cons.
    change (String newline EmptyString +:+ ?r) with (String newline r).
    rewrite split_lines_app, filter_app, length_app, Hsplit.
    rewrite filter_cons_True by done. specialize (IH Hls).
    cbn [length] in *. lia.
Qed.

(** The handler always obtains ten overlay lines from the script. *)
Lemma textOverlays_length (p mood language : string) :
  length (textOverlays (generateEnhancedScript p mood language)) = 10.
Proof.
  unfold textOverlays, slice0, generateEnhancedScript.
  rewrite length_take, length_fmap.
  pose proof (marked_pieces _ (scriptLines_marked p mood)) as H.
  rewrite scriptLines_length in H. lia.
Qed.

End ScriptFacts.

(** ** Effects of the pipeline stages *)

Module Effects.

Import Props.

Lemma clock_record (c : Call) (w : State) : clock (record c w) = S (clock w).
Proof. unfold clock, record. cbn. rewrite length_app. cbn. lia. Qed.

Lemma bind_inr {A B} (m : M A) (k : A → M B) w a w' :
  m w = (inr a, w') → (m ≫= k) w = k a w'.
Proof. intros H. exec. by rewrite H. Qed.

Lemma bind_inl {A B} (m : M A) (k : A → M B) w e w' :
  m w = (inl e, w') → (m ≫= k) w = (inl e, w').
Proof. intros H. exec. by rewrite H. Qed.

Lemma only_calls_ret {A} P (a : A) : only_calls P (mret a).
Proof. intros w. split; [done|]. exists []. by rewrite app_nil_r. Qed.

Lemma only_calls_throw {A} P e : only_calls P (throw e : M A).
Proof. intros w. split; [done|]. exists []. by rewrite app_nil_r. Qed.

Lemma only_calls_call {A} (P : Call → bool) c (answer : nat → string + A) k :
  P c = true → only_calls P (call c answer k).
Proof.
  intros Hc w. unfold call. destruct (answer (clock w)); cbn;
    (split; [done|]); exists [c]; cbn; by rewrite Hc.
Qed.

Lemma only_calls_bind {A B} P (m : M A) (k : A → M B) :
  only_calls P m → (∀ a, only_calls P (k a)) → only_calls P (m ≫= k).
Proof.
  intros Hm Hk w. destruct (Hm w) as [Hf (added & Hc & Hp)]. exec.
  destruct (m w) as [[e|a] w1]; cbn in *.
  - split; [done|]. by exists added.
  - destruct (Hk a w1) as [Hf' (added' & Hc' & Hp')]. split; [congruence|].
    exists (added ++ added'). rewrite Hc', Hc, <- app_assoc. split; [done|].
    rewrite forallb_app. by rewrite Hp, Hp'.
Qed.

Lemma only_calls_attempt {A} P (m : M A) :
  only_calls P m → only_calls P (attempt m).
Proof.
  intros Hm w. specialize (Hm w). unfold attempt.
  by destruct (m w) as [r w1].
Qed.

Lemma never_throws_ret {A} (a : A) : never_throws (mret a : M A).
Proof. intros w. by exists a, w. Qed.

Lemma never_throws_attempt {A} (m : M A) : never_throws (attempt m).
Proof. intros w. unfold attempt. destruct (m w) as [r w1]. by exists r, w1. Qed.

Lemma never_throws_bind {A B} (m : M A) (k : A → M B) :
  never_throws m → (∀ a, never_throws (k a)) → never_throws (m ≫= k).
Proof.
  intros Hm Hk w. destruct (Hm w) as (a & w1 & E).
  rewrite (bind_inr _ _ _ _ _ E). apply Hk.
Qed.

Lemma throws_only_ret {A} K (a : A) : throws_only K (mret a : M A).
Proof. intros w e w' H. discriminate. Qed.

Lemma throws_only_bind {A B} K (m : M A) (k : A → M B) :
  throws_only K m → (∀ a, throws_only K (k a)) → throws_only K (m ≫= k).
Proof.
  intros Hm Hk w e w' H. exec. destruct (m w) as [[e1|a] w1] eqn:E.
  - injection H as <- <-. by eapply Hm.
  - by eapply Hk.
Qed.

Lemma throws_only_never {A} K (m : M A) : never_throws m → throws_only K m.
Proof. intros Hm w e w' H. destruct (Hm w) as (a & w1 & E). congruence. Qed.

End Effects.

(** ** The asset resolver *)

Module ResolverFacts.

Import Props Pipeline Effects.

Lemma find_split {A} (f : A → bool) (l : list A) (x : A) :
  List.find f l = Some x ↔
  ∃ l1 l2, l = l1 ++ x :: l2 ∧ Forall (λ y, f y = false) l1 ∧ f x = true.
Proof.
  induction l as [|y l IH]; cbn [List.find].
  - split; [done|]. intros (l1 & l2 & E & _). by destruct l1.
  - destruct (f y) eqn:Ey; split.
    + intros [= ->]. by exists [], l.
    + intros (l1 & l2 & E & Hl1 & Hx). destruct l1 as [|z l1].
      * by injection E as ->.
      * injection E as -> _. apply Forall_cons in Hl1 as [Hz _]. congruence.
    + intros (l1 & l2 & -> & Hl1 & Hx)%IH. exists (y :: l1), l2.
      split; [done|]. split; [|done]. by constructor.
    + intros (l1 & l2 & E & Hl1 & Hx). apply IH. destruct l1 as [|z l1].
      * injection E as ->. congruence.
      * injection E as -> ->. apply Forall_cons in Hl1 as [_ Hl1].
        by exists l1, l2.
Qed.

Lemma find_none_iff {A} (f : A → bool) (l : list A) :
  List.find f l = None ↔ Forall (λ y, f y = false) l.
Proof.
  induction l as [|y l IH]; cbn [List.find]; [by split|].
  destruct (f y) eqn:Ey; split.
  - done.
  - intros [H _]%Forall_cons. congruence.
  - intros H%IH. by constructor.
  - intros [_ H]%Forall_cons. by apply IH.
Qed.

(** What [pickVideo] returns: the first HD file with a link of the
    first candidate in the window. *)
Lemma pickVideo_Some (d : SearchData) (url : string) :
  pickVideo d = Some url ↔
  ∃ before video after skipped hd rest,
    videos d = Some (before ++ video :: after) ∧
    Forall (λ v, in_window v = false) before ∧ in_window video = true ∧
    video_files video = skipped ++ hd :: rest ∧
    Forall (λ f, is_hd f = false) skipped ∧ is_hd hd = true ∧
    link hd = url.
Proof.
  unfold pickVideo. split.
  - destruct (videos d) as [[|v vs]|]; [done| |done].
    destruct (List.find in_window (v :: vs)) as [video|] eqn:Ev; [|done].
    destruct (List.find is_hd (video_files video)) as [hd|] eqn:Eh; [|done].
    intros [= <-].
    apply find_split in Ev as (before & after & -> & Hb & Hv).
    apply find_split in Eh as (skipped & rest & Hfiles & Hs & Hh).
    by exists before, video, after, skipped, hd, rest.
  - intros (before & video & after & skipped & hd & rest
            & -> & Hb & Hv & Hfiles & Hs & Hh & <-).
    assert (List.find in_window (before ++ video :: after) = Some video) as Ev.
    { apply find_split. by exists before, after. }
    assert (List.find is_hd (video_files video) = Some hd) as Eh.
    { apply find_split. by exists skipped, rest. }
    destruct (before ++ video :: after) as [|v vs] eqn:E; [by destruct before|].
    by rewrite Ev, Eh.
Qed.

Lemma pickVideo_None (d : SearchData) :
  pickVideo d = None ↔
  Forall (λ v, in_window v = false) (default [] (videos d)) ∨
  ∃ before video after,
    videos d = Some (before ++ video :: after) ∧
    Forall (λ v, in_window v = false) before ∧ in_window video = true ∧
    Forall (λ f, is_hd f = false) (video_files video).
Proof.
  unfold pickVideo. split.
  - destruct (videos d) as [[|v vs]|]; [by left; constructor| |by left; constructor].
    destruct (List.find in_window (v :: vs)) as [video|] eqn:Ev.
    + destruct (List.find is_hd (video_files video)) as [hd|] eqn:Eh; [done|].
      intros _. right.
      apply find_split in Ev as (before & after & E & Hb & Hv).
      apply find_none_iff in Eh. exists before, video, after. by rewrite E.
    + intros _. left. by apply find_none_iff in Ev.
  - intros [Hnone|(before & video & after & -> & Hb & Hv & Hf)].
    + destruct (videos d) as [[|v vs]|]; [done| |done]. cbn in Hnone.
      apply find_none_iff in Hnone. by rewrite Hnone.
    + assert (List.find in_window (before ++ video :: after) = Some video) as Ev.
      { apply find_split. by exists before, after. }
      apply find_none_iff in Hf.
      destruct (before ++ video :: after) as [|v vs] eqn:E; [done|].
      by rewrite Ev, Hf.
Qed.

Section WithEnv.

Context (env : Env).

Lemma resolver_key_missing (cue subject : string) (w : State) :
  Js.truthy_opt (pexelsApiKey env) = false →
  getPexelsVideoForLine env cue subject w =
  (inl (mkError PexelsKeyMissing "Pexels API Key is missing."), w).
Proof. intros H. unfold getPexelsVideoForLine. by rewrite H. Qed.

Lemma resolver_never_throws (cue subject : string) :
  Js.truthy_opt (pexelsApiKey env) = true →
  never_throws (getPexelsVideoForLine env cue subject).
Proof.
  intros H. unfold getPexelsVideoForLine. rewrite H. cbn [negb].
  apply never_throws_bind; [apply never_throws_attempt|].
  intros [e|found]; apply never_throws_ret.
Qed.

Lemma resolver_throws_only (cue subject : string) :
  throws_only (λ k, k = PexelsKeyMissing)
    (getPexelsVideoForLine env cue subject).
Proof.
  destruct (Js.truthy_opt (pexelsApiKey env)) eqn:H.
  - by apply throws_only_never, resolver_never_throws.
  - intros w e w' E. rewrite resolver_key_missing in E by done.
    by injection E as <- _.
Qed.

Lemma resolver_only_calls (cue subject : string) :
  only_calls is_lookup (getPexelsVideoForLine env cue subject).
Proof.
  unfold getPexelsVideoForLine.
  destruct (negb _); [apply only_calls_throw|].
  apply only_calls_bind.
  - apply only_calls_attempt, only_calls_bind; [by apply only_calls_call|].
    intros res. apply only_calls_bind; [|intros; apply only_calls_ret].
    destruct (no_videos res); [by apply only_calls_call|apply only_calls_ret].
  - intros [e|found]; apply only_calls_ret.
Qed.

(** The primary search throws. *)
Lemma resolver_primary_error (cue subject msg : string) (w : State) :
  Js.truthy_opt (pexelsApiKey env) = true →
  pexels env (clock w) (subject +:+ " " +:+ cue) = inl msg →
  getPexelsVideoForLine env cue subject w =
  (inr None, record (PexelsSearch (subject +:+ " " +:+ cue)) w).
Proof.
  intros Hk He. unfold getPexelsVideoForLine, searchVideos. rewrite Hk.
  cbn [negb]. exec. by rewrite He.
Qed.

(** The primary search answers with candidates. *)
Lemma resolver_primary_found (cue subject : string) res (w : State) :
  Js.truthy_opt (pexelsApiKey env) = true →
  pexels env (clock w) (subject +:+ " " +:+ cue) = inr res →
  no_videos res = false →
  getPexelsVideoForLine env cue subject w =
  (inr (pickVideo res), record (PexelsSearch (subject +:+ " " +:+ cue)) w).
Proof.
  intros Hk He Hn. unfold getPexelsVideoForLine, searchVideos. rewrite Hk.
  cbn [negb]. exec. rewrite He, Hn. done.
Qed.

(** The primary search answers with nothing and the broadened search
    throws. *)
Lemma resolver_fallback_error (cue subject msg : string) res (w : State) :
  Js.truthy_opt (pexelsApiKey env) = true →
  pexels env (clock w) (subject +:+ " " +:+ cue) = inr res →
  no_videos res = true →
  pexels env (S (clock w)) cue = inl msg →
  getPexelsVideoForLine env cue subject w =
  (inr None,
   record (PexelsSearch cue)
     (record (PexelsSearch (subject +:+ " " +:+ cue)) w)).
Proof.
  intros Hk He Hn He2. unfold getPexelsVideoForLine, searchVideos. rewrite Hk.
  cbn [negb]. exec. rewrite He, Hn. exec. rewrite clock_record, He2. done.
Qed.

Lemma resolver_fallback_found (cue subject : string) res res' (w : State) :
  Js.truthy_opt (pexelsApiKey env) = true →
  pexels env (clock w) (subject +:+ " " +:+ cue) = inr res →
  no_videos res = true →
  pexels env (S (clock w)) cue = inr res' →
  getPexelsVideoForLine env cue subject w =
  (inr (pickVideo res'),
   record (PexelsSearch cue)
     (record (PexelsSearch (subject +:+ " " +:+ cue)) w)).
Proof.
  intros Hk He Hn He2. unfold getPexelsVideoForLine, searchVideos. rewrite Hk.
  cbn [negb]. exec. rewrite He, Hn. exec. rewrite clock_record, He2. done.
Qed.

End WithEnv.

End ResolverFacts.

(** ** The asset stage of the handler *)

Module AssetFacts.

Import Props Pipeline Handler Effects ResolverFacts.

Section WithEnv.

Context (env : Env).

Lemma askOpenAi_only_calls (prompt : string) :
  only_calls is_lookup (askOpenAi env prompt).
Proof.
  unfold askOpenAi. destruct (openaiConfigured env);
    [by apply only_calls_call|apply only_calls_throw].
Qed.

Lemma generateAiContent_only_calls (prompt : string) (first : bool) :
  only_calls is_lookup (generateAiContent env prompt first).
Proof.
  unfold generateAiContent. destruct first; [|apply askOpenAi_only_calls].
  apply only_calls_bind; [by apply only_calls_attempt, only_calls_call|].
  intros [e|text]; [apply askOpenAi_only_calls|apply only_calls_ret].
Qed.

(** One iteration of the per-line loop never throws; it appends at
    most one url, and only one the resolver returned. *)
Lemma primaryStep_result (subject mood line : string) (acc : Assets)
    (w : State) :
  ∃ acc' w',
    primaryStep env subject mood line acc w = (inr acc', w') ∧
    (videoUrls acc' = videoUrls acc ∨
     ∃ url cue w1,
       videoUrls acc' = videoUrls acc ++ [url] ∧
       getPexelsVideoForLine env cue subject w1 = (inr (Some url), w')).
Proof.
  unfold primaryStep. exec.
  destruct (generateAiContent env _ true w) as [[e|text] w1];
    [by exists acc, w1; split; [|left]|].
  destruct (getPexelsVideoForLine env (Js.trim text) subject w1)
    as [[e|[url|]] w2] eqn:E.
  - eexists _, w2. split; [done|]. by left.
  - destruct (Js.truthy url).
    + eexists _, w2. split; [done|]. right. by exists url, (Js.trim text), w1.
    + eexists _, w2. split; [done|]. by left.
  - eexists _, w2. split; [done|]. by left.
Qed.

Lemma primaryStep_never_throws (subject mood line : string) (acc : Assets) :
  never_throws (primaryStep env subject mood line acc).
Proof.
  intros w. destruct (primaryStep_result subject mood line acc w)
    as (acc' & w' & E & _). by exists acc', w'.
Qed.

Lemma primaryStep_only_calls (subject mood line : string) (acc : Assets) :
  only_calls is_lookup (primaryStep env subject mood line acc).
Proof.
  unfold primaryStep. apply only_calls_bind;
    [apply only_calls_attempt, generateAiContent_only_calls|].
  intros [e|text]; [apply only_calls_ret|].
  apply only_calls_bind; [apply only_calls_attempt, resolver_only_calls|].
  intros [e|[url|]]; [apply only_calls_ret| |apply only_calls_ret].
  destruct (Js.truthy url); apply only_calls_ret.
Qed.

Lemma primaryLoop_never_throws (subject mood : string) (lines : list string)
    (acc : Assets) :
  never_throws (primaryLoop env subject mood lines acc).
Proof.
  revert acc. induction lines as [|line lines IH]; intros acc;
    cbn [primaryLoop]; [apply never_throws_ret|].
  apply never_throws_bind; [apply primaryStep_never_throws|done].
Qed.

Lemma primaryLoop_only_calls (subject mood : string) (lines : list string)
    (acc : Assets) :
  only_calls is_lookup (primaryLoop env subject mood lines acc).
Proof.
  revert acc. induction lines as [|line lines IH]; intros acc;
    cbn [primaryLoop]; [apply only_calls_ret|].
  apply only_calls_bind; [apply primaryStep_only_calls|done].
Qed.

(** The per-line loop appends at most one url per line. *)
Lemma primaryLoop_length (subject mood : string) (lines : list string)
    (acc acc' : Assets) (w w' : State) :
  primaryLoop env subject mood lines acc w = (inr acc', w') →
  length (videoUrls acc') ≤ length (videoUrls acc) + length lines.
Proof.
  revert acc w. induction lines as [|line lines IH]; intros acc w;
    cbn [primaryLoop].
  - intros [= <- _]. simpl. lia.
  - destruct (primaryStep_result subject mood line acc w)
      as (acc1 & w1 & E & Hurls).
    rewrite (bind_inr _ _ _ _ _ E). intros H%IH.
    destruct Hurls as [Hu|(url & cue & w0 & Hu & _)]; rewrite Hu in H;
      rewrite ?length_app in H; cbn [length] in *; lia.
Qed.

(** Without an API key the per-line loop finds nothing. *)
Lemma primaryLoop_key_missing (subject mood : string) (lines : list string)
    (acc acc' : Assets) (w w' : State) :
  Js.truthy_opt (pexelsApiKey env) = false →
  primaryLoop env subject mood lines acc w = (inr acc', w') →
  videoUrls acc' = videoUrls acc.
Proof.
  intros Hk. revert acc w. induction lines as [|line lines IH]; intros acc w;
    cbn [primaryLoop].
  - by intros [= <- _].
  - destruct (primaryStep_result subject mood line acc w)
      as (acc1 & w1 & E & Hurls).
    rewrite (bind_inr _ _ _ _ _ E). intros H%IH. rewrite H.
    destruct Hurls as [Hu|(url & cue & w0 & _ & Hr)]; [done|].
    by rewrite resolver_key_missing in Hr.
Qed.

Lemma fallbackLoop_only_calls (subject : string) (searches urls : list string) :
  only_calls is_lookup (fallbackLoop env subject searches urls).
Proof.
  revert urls. induction searches as [|search rest IH]; intros urls;
    cbn [fallbackLoop]; [apply only_calls_ret|].
  destruct (5 <=? length urls); [apply only_calls_ret|].
  apply only_calls_bind; [apply resolver_only_calls|done].
Qed.

Lemma fallbackLoop_throws_only (subject : string) (searches urls : list string) :
  throws_only (λ k, k = PexelsKeyMissing)
    (fallbackLoop env subject searches urls).
Proof.
  revert urls. induction searches as [|search rest IH]; intros urls;
    cbn [fallbackLoop]; [apply throws_only_ret|].
  destruct (5 <=? length urls); [apply throws_only_ret|].
  apply throws_only_bind; [apply resolver_throws_only|done].
Qed.

Lemma add_fallback_NoDup (found : option string) (urls : list string) :
  NoDup urls → NoDup (add_fallback found urls).
Proof.
  intros Hnd. destruct found as [v|]; [|done]. cbn [add_fallback].
  destruct (Js.truthy v); [|done]. cbn [andb]. unfold Js.array_includes.
  case_bool_decide; [done|]. cbn [negb].
  apply NoDup_app. split_and!; [done| |apply NoDup_singleton].
  intros x Hx ->%list_elem_of_singleton. done.
Qed.

Lemma add_fallback_length (found : option string) (urls : list string) :
  length (add_fallback found urls) ≤ S (length urls).
Proof.
  destruct found as [v|]; cbn [add_fallback]; [|lia].
  destruct (_ && _); rewrite ?length_app; cbn [length]; lia.
Qed.

(** The fallback loop never introduces a duplicate. *)
Lemma fallbackLoop_NoDup (subject : string) (searches urls urls' : list string)
    (w w' : State) :
  NoDup urls →
  fallbackLoop env subject searches urls w = (inr urls', w') → NoDup urls'.
Proof.
  revert urls w. induction searches as [|search rest IH]; intros urls w Hnd;
    cbn [fallbackLoop].
  - by intros [= <- _].
  - destruct (5 <=? length urls); [by intros [= <- _]|].
    exec. destruct (getPexelsVideoForLine env search subject w)
      as [[e|found] w1]; [done|].
    apply IH. by apply add_fallback_NoDup.
Qed.

(** The fallback loop stops at five urls. *)
Lemma fallbackLoop_length (subject : string) (searches urls urls' : list string)
    (w w' : State) :
  fallbackLoop env subject searches urls w = (inr urls', w') →
  length urls' ≤ max 5 (length urls).
Proof.
  revert urls w. induction searches as [|search rest IH]; intros urls w;
    cbn [fallbackLoop].
  - intros [= <- _]. lia.
  - destruct (5 <=? length urls) eqn:E; [intros [= <- _]; lia|].
    apply Nat.leb_gt in E. exec.
    destruct (getPexelsVideoForLine env search subject w)
      as [[e|found] w1]; [done|].
    intros H%IH. pose proof (add_fallback_length found urls). lia.
Qed.

Lemma collectAssets_only_calls (subject mood : string) (overlays : list string) :
  only_calls is_lookup (collectAssets env subject mood overlays).
Proof.
  unfold collectAssets. apply only_calls_bind; [apply primaryLoop_only_calls|].
  intros acc. destruct (_ <? 3); [|apply only_calls_ret].
  apply only_calls_bind; [apply fallbackLoop_only_calls|].
  intros urls. apply only_calls_ret.
Qed.

(** The asset stage throws only for want of an API key, and then
    the per-line loop had found nothing. *)
Lemma collectAssets_throws (subject mood : string) (overlays : list string)
    (w w' : State) (e : Error) :
  collectAssets env subject mood overlays w = (inl e, w') →
  kind e = PexelsKeyMissing ∧
  Js.truthy_opt (pexelsApiKey env) = false ∧
  ∃ acc w1,
    primaryLoop env subject mood
      (take (min (length overlays) 5) overlays) (mkAssets [] []) w
    = (inr acc, w1) ∧ videoUrls acc = [].
Proof.
  unfold collectAssets.
  destruct (primaryLoop_never_throws subject mood
              (take (min (length overlays) 5) overlays) (mkAssets [] []) w)
    as (acc & w1 & E).
  rewrite (bind_inr _ _ _ _ _ E).
  destruct (length (videoUrls acc) <? 3); [|done].
  exec. destruct (fallbackLoop env subject _ (videoUrls acc) w1)
    as [[e1|urls] w2] eqn:Ef; [|done].
  intros [= <- <-].
  pose proof (fallbackLoop_throws_only _ _ _ _ _ _ Ef) as Hkind.
  destruct (Js.truthy_opt (pexelsApiKey env)) eqn:Hk.
  - exfalso. revert Ef. generalize (videoUrls acc) w1.
    induction (fallbackSearches subject mood) as [|search rest IH];
      intros urls w0; cbn [fallbackLoop]; [done|].
    destruct (5 <=? length urls); [done|].
    destruct (resolver_never_throws env search subject Hk w0)
      as (found & w3 & Er).
    rewrite (bind_inr _ _ _ _ _ Er). apply IH.
  - split_and!; [done..|]. exists acc, w1. split; [done|].
    by apply (primaryLoop_key_missing _ _ _ _ _ _ _ Hk E).
Qed.

(** The asset stage never holds more than five urls. *)
Lemma collectAssets_length (subject mood : string) (overlays : list string)
    (assets : Assets) (w w' : State) :
  collectAssets env subject mood overlays w = (inr assets, w') →
  length (videoUrls assets) ≤ 5.
Proof.
  unfold collectAssets.
  destruct (primaryLoop_never_throws subject mood
              (take (min (length overlays) 5) overlays) (mkAssets [] []) w)
    as (acc & w1 & E).
  rewrite (bind_inr _ _ _ _ _ E).
  apply primaryLoop_length in E. rewrite length_take in E. cbn in E.
  destruct (length (videoUrls acc) <? 3) eqn:E3.
  - exec. destruct (fallbackLoop env subject _ (videoUrls acc) w1)
      as [[e1|urls] w2] eqn:Ef; [done|].
    intros [= <- _]. cbn. apply fallbackLoop_length in Ef. lia.
  - intros [= <- _]. lia.
Qed.

End WithEnv.

End AssetFacts.

(** ** The composition planner and the renderer *)

Module RenderFacts.

Import Props Pipeline Handler Effects.

Lemma slices_videoFilters (n : nat) :
  omap (λ f, match f with VideoChain _ d => Some d | _ => None end)
    (videoFilters n) = replicate n (segmentDuration n).
Proof.
  unfold videoFilters. generalize (segmentDuration n) as d. intros d.
  rewrite <- (length_seq n 0) at 2. generalize (seq 0 n) as l.
  induction l as [|i l IH]; [done|]. cbn. by rewrite IH.
Qed.

Lemma slices_buildCommand (files : list string) (voice music : option string)
    (out : string) :
  slices (buildCommand files voice music out) =
  replicate (length files) (segmentDuration (length files)).
Proof.
  unfold slices, buildCommand. cbn [complexFilter].
  rewrite !omap_app, slices_videoFilters.
  assert (omap (λ f, match f with VideoChain _ d => Some d | _ => None end)
            (audioFilters voice music (length files)).1 = []) as ->.
  { unfold audioFilters. by repeat destruct (Js.truthy_opt _). }
  cbn. by rewrite app_nil_r.
Qed.

(** In binary64, [n] slices of [25 / n] add up to 25 for [n] up to 5. *)
Lemma slices_sum (n : nat) :
  1 ≤ n ≤ 5 → sum_floats (replicate n (segmentDuration n)) = totalDuration.
Proof.
  intros [H1 H5].
  do 6 (destruct n as [|n]; [first [lia | by vm_compute]|]). lia.
Qed.

Lemma audio_of_videoFilters (n : nat) :
  List.filter is_audio_filter (videoFilters n) = [].
Proof.
  unfold videoFilters. generalize (seq 0 n) as l.
  induction l as [|i l IH]; [done|]. by cbn.
Qed.

Lemma audio_part_buildCommand (files : list string)
    (voice music : option string) (out : string) :
  audio_part (buildCommand files voice music out) =
  (audioFilters voice music (length files)).1.
Proof.
  unfold audio_part, buildCommand. cbn [complexFilter].
  rewrite !List.filter_app, audio_of_videoFilters. cbn [List.filter is_audio_filter app].
  unfold audioFilters. by repeat destruct (Js.truthy_opt _).
Qed.

Section WithEnv.

Context (env : Env).

(** The download loop yields one file per url. *)
Lemma downloadAll_length (urls : list string) (i : nat) (acc files : list string)
    (w w' : State) :
  downloadAll env urls i acc w = (inr files, w') →
  length files = length acc + length urls.
Proof.
  revert i acc w. induction urls as [|url urls IH]; intros i acc w;
    cbn [downloadAll].
  - intros [= <- _]. cbn. lia.
  - exec. destruct (http_get env (clock w) url); [done|].
    intros ->%IH. rewrite length_app. cbn. lia.
Qed.

(** The download loop only adds files, keeps what it was given, and
    every file it reports exists afterwards. *)
Lemma downloadAll_files (urls : list string) (i : nat) (acc : list string)
    (w : State) :
  let r := downloadAll env urls i acc w in
  files w ⊆ files r.2 ∧
  List.filter is_unlink (calls r.2) = List.filter is_unlink (calls w) ∧
  ∀ downloaded, r.1 = inr downloaded →
    (∀ f, f ∈ acc → f ∈ files w) → ∀ f, f ∈ downloaded → f ∈ files r.2.
Proof.
  revert i acc w. induction urls as [|url urls IH]; intros i acc w;
    cbn [downloadAll].
  - cbn. split_and!; [done..|]. by intros ? [= <-].
  - exec. destruct (http_get env (clock w) url) as [msg|u].
    + cbn. split_and!; [done| |done].
      by rewrite List.filter_app, app_nil_r.
    + specialize (IH (S i) (acc ++ [path_join (tmpdir env)
                  ("clip-" +:+ pretty i +:+ ".mp4")])
                  (write_file (path_join (tmpdir env)
                     ("clip-" +:+ pretty i +:+ ".mp4"))
                     (record (HttpGet url) w))).
      cbn zeta in IH. destruct IH as (Hsub & Hun & Hin).
      split_and!.
      * etrans; [|exact Hsub]. cbn. set_solver.
      * rewrite Hun. cbn. by rewrite List.filter_app, app_nil_r.
      * intros downloaded Hd Hacc. apply Hin; [done|].
        intros f [Hf | ->%list_elem_of_singleton]%elem_of_app; cbn.
        -- specialize (Hacc f Hf). set_solver.
        -- set_solver.
Qed.

Lemma unlink_never_throws (path : string) : never_throws (unlink env path).
Proof. intros w. unfold unlink. by eexists _, _. Qed.

Lemma unlinkAll_never_throws (paths : list string) :
  never_throws (unlinkAll env paths).
Proof.
  induction paths as [|p paths IH]; cbn [unlinkAll];
    [apply never_throws_ret|].
  apply never_throws_bind; [apply unlink_never_throws|done].
Qed.

Lemma cleanup_never_throws (downloaded : list string) (voice : option string) :
  never_throws (cleanup env downloaded voice).
Proof.
  unfold cleanup. apply never_throws_bind; [apply unlinkAll_never_throws|].
  intros _. destruct voice as [p|]; [|apply never_throws_ret].
  destruct (Js.truthy p); [apply unlink_never_throws|apply never_throws_ret].
Qed.

(** When deletions succeed, the listed files are gone. *)
Lemma unlinkAll_files (paths : list string) (w : State) :
  (∀ k p, unlink_ok env k p = true) →
  files (unlinkAll env paths w).2 = files w ∖ list_to_set paths.
Proof.
  intros Hok. revert w. induction paths as [|p paths IH]; intros w;
    cbn [unlinkAll].
  - cbn. set_solver.
  - exec. unfold unlink at 1. rewrite Hok. rewrite IH. cbn. set_solver.
Qed.

(** The failure path: when the promise rejects, no file has been
    deleted and no deletion has been attempted. *)
Lemma createVideo_rejected (urls overlays : list string)
    (voice music : option string) (subs : bool) (ts : Z) (product : string)
    (w w' : State) (e : Error) :
  createVideoWithSubtitles env urls overlays voice music subs ts product w
  = (inl e, w') →
  files w ⊆ files w' ∧
  List.filter is_unlink (calls w') = List.filter is_unlink (calls w) ∧
  (kind e = TransportError ∨
   kind e = RenderError ∧
   ∃ downloaded w1,
     downloadAll env urls 0 [] w = (inr downloaded, w1) ∧
     length downloaded = length urls ∧
     ∀ f, f ∈ downloaded → f ∈ files w').
Proof.
  unfold createVideoWithSubtitles.
  pose proof (downloadAll_files urls 0 [] w) as H. cbn zeta in H.
  destruct H as (Hsub & Hun & Hin). exec.
  destruct (downloadAll env urls 0 [] w) as [[e1|downloaded] w1] eqn:Ed;
    cbn [fst snd] in *.
  - intros [= <- <-]. split_and!; [done..|]. left.
    clear -Ed. revert Ed. generalize 0 (@nil string) w.
    induction urls as [|url urls IH]; intros i acc w0; cbn [downloadAll];
      [done|].
    exec. destruct (http_get env (clock w0) url); [by intros [= <- _]|].
    apply IH.
  - destruct (ffmpeg env (clock w1) _) as [msg|u].
    + intros [= <- <-]. cbn. split_and!; [done| |].
      { by rewrite List.filter_app, app_nil_r. }
      right. split; [done|]. exists downloaded, w1. split_and!; [done| |].
      * by apply downloadAll_length in Ed.
      * apply Hin; [done|]. by intros f Hf%elem_of_nil.
    + intros Hc. exfalso.
      match type of Hc with
      | (let (_, _) := cleanup env ?d ?v ?w0 in _) = _ =>
          destruct (cleanup_never_throws d v w0) as (u' & w2 & Ec);
          rewrite Ec in Hc
      end.
      done.
Qed.

Lemma cleanup_files (downloaded : list string) (voice : option string)
    (w : State) :
  (∀ k p, unlink_ok env k p = true) →
  files (cleanup env downloaded voice w).2 =
  files w ∖ list_to_set (downloaded ++ input_if_present voice).
Proof.
  intros Hok. unfold cleanup.
  pose proof (unlinkAll_files downloaded w Hok) as Hf.
  destruct (unlinkAll_never_throws downloaded w) as (u & w1 & E).
  rewrite (bind_inr _ _ _ _ _ E). rewrite E in Hf. cbn [snd] in Hf.
  rewrite list_to_set_app_L.
  destruct voice as [p|]; cbn [input_if_present].
  - destruct (Js.truthy p).
    + unfold unlink. rewrite Hok. cbn. rewrite Hf. set_solver.
    + cbn. rewrite Hf. set_solver.
  - cbn. rewrite Hf. set_solver.
Qed.

(** The success path: when the promise resolves and deletions
    succeed, the downloaded clips and the narration file are gone. *)
Lemma createVideo_resolved (urls overlays : list string)
    (voice music : option string) (subs : bool) (ts : Z) (product : string)
    (w w' : State) (url : string) :
  (∀ k p, unlink_ok env k p = true) →
  createVideoWithSubtitles env urls overlays voice music subs ts product w
  = (inr url, w') →
  ∃ downloaded w1,
    downloadAll env urls 0 [] w = (inr downloaded, w1) ∧
    ∀ f, f ∈ downloaded ++ input_if_present voice → f ∉ files w'.
Proof.
  intros Hok. unfold createVideoWithSubtitles. exec.
  destruct (downloadAll env urls 0 [] w) as [[e1|downloaded] w1] eqn:Ed;
    [done|].
  destruct (ffmpeg env (clock w1) _) as [msg|u]; [done|].
  match goal with
  | |- (let (_, _) := cleanup env ?d ?v ?w0 in _) = _ → _ =>
      pose proof (cleanup_files d v w0 Hok) as Hf;
      destruct (cleanup_never_throws d v w0) as (u' & w2 & Ec);
      rewrite Ec in Hf |- *
  end.
  intros [= _ <-]. exists downloaded, w1. split; [done|].
  intros f Hf'. cbn [snd] in Hf. rewrite Hf. set_solver.
Qed.

Lemma selectMusic_never_throws (audioOption : string) :
  never_throws (selectMusic env audioOption).
Proof.
  intros w. unfold selectMusic. destruct (Js.includes audioOption "music");
    [|by eexists _, _].
  destruct (musicDir env) as [listing|]; [|by eexists _, _].
  destruct (List.filter is_music_file listing); by eexists _, _.
Qed.

Lemma generateVoice_throws (text language voice : string) (ts : Z) :
  throws_only late_failure (generateVoice env text language voice ts).
Proof.
  intros w e w'. unfold generateVoice. exec.
  destruct (elevenlabs env (clock w) voice text); [|done].
  intros [= <- _]. by left.
Qed.

Lemma createVideo_throws (urls overlays : list string)
    (voice music : option string) (subs : bool) (ts : Z) (product : string) :
  throws_only late_failure
    (createVideoWithSubtitles env urls overlays voice music subs ts product).
Proof.
  intros w e w' H. apply createVideo_rejected in H as (_ & _ & [H|[H _]]);
    unfold late_failure; auto.
Qed.

(** Steps 3 and 4 fail only for the voice, a download or ffmpeg. *)
Lemma produce_throws (subject mood language audioOption : string)
    (subs : bool) (ts : Z) (fullScript : string) (overlays : list string)
    (assets : Assets) :
  throws_only late_failure
    (produce env subject mood language audioOption subs ts fullScript
       overlays assets).
Proof.
  unfold produce. apply throws_only_bind.
  { apply throws_only_never, selectMusic_never_throws. }
  intros music. apply throws_only_bind.
  { unfold narrate. destruct (Js.includes audioOption "voice");
      [|apply throws_only_ret].
    apply throws_only_bind; [apply generateVoice_throws|].
    intros; apply throws_only_ret. }
  intros voice. apply throws_only_bind; [apply createVideo_throws|].
  intros; apply throws_only_ret.
Qed.

End WithEnv.

End RenderFacts.

(** ** The handler around the asset stage *)

Module HandlerFacts.

Import Script Props Pipeline Handler Effects AssetFacts.

Lemma lookup_is_not_render (added : list Call) :
  forallb is_lookup added = true → List.filter is_render added = [].
Proof.
  induction added as [|c added IH]; [done|]. cbn [forallb List.filter].
  intros [Hc Ha]%andb_true_iff. rewrite (IH Ha). by destruct c.
Qed.

Lemma calls_since_app (w w' : State) (added : list Call) :
  calls w' = calls w ++ added → calls_since w w' = added.
Proof. intros H. unfold calls_since. by rewrite H, drop_app_length. Qed.

(** With a mood, the handler always gets past its script check. *)
Lemma generate_afterScript (env : Env) (subject : string) (req : Request)
    (m : string) (ts : Z) :
  mood req = Some m →
  generate env subject req ts =
  afterScript env subject m (default "en" (language req))
    (default "voice+music" (audioOption req))
    (default true (includeSubtitles req)) ts
    (generateEnhancedScript subject m (default "en" (language req)))
    (textOverlays
       (generateEnhancedScript subject m (default "en" (language req)))).
Proof.
  intros Hm. unfold generate. rewrite Hm. cbn zeta.
  by rewrite ScriptFacts.textOverlays_length.
Qed.

End HandlerFacts.

(** ** The command that is run *)

Module PlanFacts.

Import Props Planned Pipeline Handler Effects.

Lemma seq_snoc_shift {A} (f : nat → A) (i n : nat) :
  f i :: (f <$> seq (S i) n) = f <$> seq i (S n).
Proof. done. Qed.

(** The exact value of a slice, for one to five clips: only a third of
    25 is not a binary64 number. *)
Lemma slice_exact (n : nat) :
  1 ≤ n ≤ 5 →
  ∃ x, in_ulps (segmentDuration n) = Some x ∧
       (Z.of_nat n * x)%Z = (seconds 25 + (if (n =? 3)%nat then 8 else 0))%Z ∧
       exact_sum (replicate n (segmentDuration n)) = Some (Z.of_nat n * x)%Z.
Proof.
  intros [H1 H5].
  do 6 (destruct n as [|n];
        [first [lia | eexists; split_and!; vm_compute; reflexivity]|]).
  lia.
Qed.

Lemma buildCommand_filters (files : list string) (voice music : option string)
    (out : string) :
  let n := length files in
  let cmd := buildCommand files voice music out in
  complexFilter cmd =
    ((λ i, VideoChain i (totalDuration / number_of_nat n)%float) <$> seq 0 n)
    ++ [Concat n] ++ audio_part cmd ∧
  audio_part cmd = (audioFilters voice music n).1.
Proof.
  cbn zeta. rewrite RenderFacts.audio_part_buildCommand. split; [|done].
  reflexivity.
Qed.

Lemma clipPaths_length (env : Env) (n : nat) : length (clipPaths env n) = n.
Proof. unfold clipPaths. by rewrite length_fmap, length_seq. Qed.

Section WithEnv.
Context (env : Env).

(** When every download succeeds, the loop fetches each url once, in
    order, and names the [i]-th file [clip-i.mp4]. *)
Lemma downloadAll_succeeds (urls : list string) (i : nat) (acc : list string)
    (w : State) :
  (∀ k u, http_get env k u = inr tt) →
  ∃ w', downloadAll env urls i acc w
        = (inr (acc ++ (clipPath env <$> seq i (length urls))), w') ∧
        calls w' = calls w ++ (HttpGet <$> urls).
Proof.
  intros Hok. revert i acc w.
  induction urls as [|url urls IH]; intros i acc w; cbn [downloadAll].
  - exists w. cbn. by rewrite !app_nil_r.
  - exec. rewrite Hok.
    destruct (IH (S i) (acc ++ [path_join (tmpdir env)
                 ("clip-" +:+ pretty i +:+ ".mp4")])
                 (write_file (path_join (tmpdir env)
                    ("clip-" +:+ pretty i +:+ ".mp4"))
                    (record (HttpGet url) w))) as (w' & E & Hc).
    exists w'. rewrite E. split.
    + cbn [length seq fmap list_fmap]. by rewrite <- app_assoc.
    + rewrite Hc. cbn. by rewrite <- app_assoc.
Qed.

Lemma unlinkAll_log (paths : list string) (w : State) :
  ∃ w', unlinkAll env paths w = (inr tt, w') ∧
        calls w' = calls w ++ (Unlink <$> paths).
Proof.
  revert w. induction paths as [|p paths IH]; intros w; cbn [unlinkAll].
  - exists w. cbn. by rewrite app_nil_r.
  - exec. unfold unlink at 1.
    match goal with
    | |- context [unlinkAll env paths ?w0] =>
        destruct (IH w0) as (w' & E & Hc); exists w'; rewrite E;
        split; [done|]; rewrite Hc
    end.
    destruct (unlink_ok env (clock w) p); cbn; by rewrite <- app_assoc.
Qed.

(** The clean-up only deletes, and never throws. *)
Lemma cleanup_log (downloaded : list string) (voice : option string)
    (w : State) :
  ∃ w', cleanup env downloaded voice w = (inr tt, w') ∧
        calls w' =
          calls w ++ (Unlink <$> downloaded ++ input_if_present voice).
Proof.
  unfold cleanup. destruct (unlinkAll_log downloaded w) as (w1 & E & Hc).
  rewrite (bind_inr _ _ _ _ _ E). rewrite fmap_app, app_assoc, <- Hc.
  destruct voice as [p|]; cbn [input_if_present].
  - destruct (Js.truthy p).
    + unfold unlink. eexists. split; [done|].
      destruct (unlink_ok env (clock w1) p); done.
    + exists w1. cbn. by rewrite app_nil_r.
  - exists w1. cbn. by rewrite app_nil_r.
Qed.

Lemma omap_downloads (urls : list string) :
  omap (λ c, match c with FfmpegRun cmd => Some cmd | _ => None end)
    (HttpGet <$> urls) = [].
Proof. by induction urls. Qed.

Lemma omap_unlinks (l : list Call) :
  forallb is_unlink l = true →
  omap (λ c, match c with FfmpegRun cmd => Some cmd | _ => None end) l = [].
Proof.
  induction l as [|c l IH]; [done|]. cbn [forallb].
  intros [Hc Hl]%andb_true_iff. destruct c; try done. cbn. by apply IH.
Qed.

(** Of a run that only downloads, runs ffmpeg once and deletes, the
    one command is the only new one. *)
Lemma commandsRun_log (w w' : State) (urls : list string)
    (cmd : FfmpegCommand) (unlinks : list Call) :
  calls w' = calls w ++ (HttpGet <$> urls) ++ FfmpegRun cmd :: unlinks →
  forallb is_unlink unlinks = true →
  commandsRun w' = commandsRun w ++ [cmd].
Proof.
  intros Hc Hu. unfold commandsRun. rewrite Hc, !omap_app, omap_downloads.
  cbn. by rewrite (omap_unlinks unlinks Hu).
Qed.

Lemma forallb_unlink (paths : list string) :
  forallb is_unlink (Unlink <$> paths) = true.
Proof. by induction paths. Qed.

(** With its downloads succeeding, the renderer fetches every url it
    is given, runs ffmpeg once on the command planned for the files
    [clip-0.mp4], [clip-1.mp4], ... and afterwards only deletes. *)
Lemma createVideo_log (urls overlays : list string)
    (voice music : option string) (subs : bool) (ts : Z) (product : string)
    (w : State) :
  (∀ k u, http_get env k u = inr tt) →
  ∃ unlinks,
    calls (createVideoWithSubtitles env urls overlays voice music subs ts
             product w).2 =
    calls w ++ (HttpGet <$> urls) ++
      FfmpegRun (buildCommand (clipPaths env (length urls)) voice music
                   (videoOutputPath env product ts)) :: unlinks ∧
    forallb is_unlink unlinks = true.
Proof.
  intros Hok. unfold createVideoWithSubtitles.
  destruct (downloadAll_succeeds urls 0 [] w Hok) as (w1 & E & Hc).
  rewrite (bind_inr _ _ _ _ _ E). cbn [app] in *.
  fold (clipPaths env (length urls)).
  fold (videoOutputPath env product ts).
  exec.
  destruct (ffmpeg env (clock w1) _) as [msg|u].
  - exists []. cbn. rewrite Hc. by rewrite <- app_assoc.
  - match goal with
    | |- context [cleanup env ?d ?v ?w0] =>
        destruct (cleanup_log d v w0) as (w2 & Ec & Hc2); rewrite Ec
    end.
    eexists. cbn [snd]. rewrite Hc2. cbn [write_file record calls].
    rewrite Hc, <- !app_assoc.
    split; [reflexivity|apply forallb_unlink].
Qed.

Lemma selectMusic_pure (audioOption : string) (w : State) :
  ∃ music, selectMusic env audioOption w = (inr music, w).
Proof.
  unfold selectMusic. destruct (Js.includes audioOption "music");
    [|by eexists].
  destruct (musicDir env) as [listing|]; [|by eexists].
  destruct (List.filter is_music_file listing); by eexists.
Qed.

(** With the speech service answering, the narration step calls it at
    most once and nothing else. *)
Lemma narrate_log (audioOption language voiceId : string)
    (overlays : list string) (ts : Z) (w : State) :
  (∀ k v t, elevenlabs env k v t = inr tt) →
  ∃ voice w' speech,
    narrate env audioOption language voiceId overlays ts w = (inr voice, w') ∧
    calls w' = calls w ++ speech ∧ forallb is_speech speech = true.
Proof.
  intros Hok. unfold narrate. destruct (Js.includes audioOption "voice").
  - unfold generateVoice. exec. rewrite Hok. cbn.
    eexists _, _, [_]. split_and!; [reflexivity|reflexivity|done].
  - exists None, w, []. cbn. by rewrite app_nil_r.
Qed.

(** Steps 3 and 4 of the handler, with the speech service and the
    downloads succeeding: the renderer is handed the first five urls. *)
Lemma produce_log (subject mood language audioOption : string)
    (subs : bool) (ts : Z) (fullScript : string) (overlays : list string)
    (assets : Assets) (w : State) :
  (∀ k u, http_get env k u = inr tt) →
  (∀ k v t, elevenlabs env k v t = inr tt) →
  ∃ voice music speech unlinks,
    calls (produce env subject mood language audioOption subs ts fullScript
             overlays assets w).2 =
    calls w ++ speech ++ (HttpGet <$> take 5 (videoUrls assets)) ++
      FfmpegRun (buildCommand
                   (clipPaths env (length (take 5 (videoUrls assets))))
                   voice music (videoOutputPath env subject ts)) :: unlinks ∧
    forallb is_speech speech = true ∧ forallb is_unlink unlinks = true.
Proof.
  intros Hget Hspeech. unfold produce.
  destruct (selectMusic_pure audioOption w) as (music & Em).
  rewrite (bind_inr _ _ _ _ _ Em).
  destruct (narrate_log audioOption language (getVoiceForProduct subject)
              overlays ts w Hspeech) as (voice & w1 & speech & En & Hc & Hs).
  rewrite (bind_inr _ _ _ _ _ En).
  destruct (createVideo_log (clipsToRender (videoUrls assets)) overlays voice
              music subs ts subject w1 Hget) as (unlinks & Hv & Hu).
  exists voice, music, speech, unlinks. split_and!; [|done..].
  unfold clipsToRender, Js.slice0 in *. rewrite Hc, <- app_assoc in Hv.
  rewrite <- Hv. exec.
  by destruct (createVideoWithSubtitles _ _ _ _ _ _ _ _ _) as [[?|?] ?].
Qed.

End WithEnv.

End PlanFacts.

(** ** Effects, counted *)

Module LogFacts.

Import Props Observed Pipeline Handler Effects.

Lemma logs_only_ret {A} P (a : A) : logs_only P (mret a).
Proof. intros w. exists []. by rewrite app_nil_r. Qed.

Lemma logs_only_throw {A} P e : logs_only P (throw e : M A).
Proof. intros w. exists []. by rewrite app_nil_r. Qed.

Lemma logs_only_modify P f :
  (∀ w, calls (f w) = calls w) → logs_only P (modify f).
Proof. intros Hf w. exists []. cbn. by rewrite Hf, app_nil_r. Qed.

Lemma logs_only_call {A} (P : Call → bool) c (answer : nat → string + A) k :
  P c = true → logs_only P (call c answer k).
Proof.
  intros Hc w. unfold call. exists [c].
  destruct (answer (clock w)); cbn; by rewrite Hc.
Qed.

Lemma logs_only_bind {A B} P (m : M A) (k : A → M B) :
  logs_only P m → (∀ a, logs_only P (k a)) → logs_only P (m ≫= k).
Proof.
  intros Hm Hk w. destruct (Hm w) as (added & Hc & Hp). exec.
  destruct (m w) as [[e|a] w1]; cbn in *; [by exists added|].
  destruct (Hk a w1) as (added' & Hc' & Hp').
  exists (added ++ added'). rewrite Hc', Hc, <- app_assoc. split; [done|].
  by rewrite forallb_app, Hp, Hp'.
Qed.

Lemma logs_only_attempt {A} P (m : M A) : logs_only P m → logs_only P (attempt m).
Proof. intros Hm w. specialize (Hm w). unfold attempt. by destruct (m w). Qed.

Lemma logs_only_weaken {A} (P Q : Call → bool) (m : M A) :
  (∀ c, P c = true → Q c = true) → logs_only P m → logs_only Q m.
Proof.
  intros HPQ Hm w. destruct (Hm w) as (added & Hc & Hp). exists added.
  split; [done|]. rewrite forallb_forall in Hp |- *. auto.
Qed.

Lemma only_calls_logs {A} P (m : M A) : only_calls P m → logs_only P m.
Proof. intros Hm w. by destruct (Hm w) as [_ H]. Qed.

Lemma filter_none (P Q : Call → bool) (l : list Call) :
  forallb P l = true → (∀ c, P c = true → Q c = false) → List.filter Q l = [].
Proof.
  intros Hl HPQ. induction l as [|c l IH]; [done|]. cbn in *.
  apply andb_true_iff in Hl as [Hc Hl]. by rewrite (HPQ c Hc), IH.
Qed.

Lemma lookups_within_ret {A} (a : A) : lookups_within 0 0 (mret a).
Proof. intros w. exists []. rewrite app_nil_r. by cbn. Qed.

Lemma lookups_within_throw {A} e : lookups_within 0 0 (throw e : M A).
Proof. intros w. exists []. rewrite app_nil_r. by cbn. Qed.

Lemma lookups_within_mono {A} (a a' s s' : nat) (m : M A) :
  a ≤ a' → s ≤ s' → lookups_within a s m → lookups_within a' s' m.
Proof.
  intros Ha Hs Hm w. destruct (Hm w) as (added & Hc & Hp & H1 & H2).
  exists added. split_and!; [done..|lia|lia].
Qed.

Lemma lookups_within_bind {A B} (a1 s1 a2 s2 : nat) (m : M A) (k : A → M B) :
  lookups_within a1 s1 m → (∀ x, lookups_within a2 s2 (k x)) →
  lookups_within (a1 + a2) (s1 + s2) (m ≫= k).
Proof.
  intros Hm Hk w. destruct (Hm w) as (added & Hc & Hp & H1 & H2). exec.
  destruct (m w) as [[e|x] w1]; cbn in *.
  - exists added. split_and!; [done..|lia|lia].
  - destruct (Hk x w1) as (added' & Hc' & Hp' & H1' & H2').
    exists (added ++ added'). rewrite Hc', Hc, <- app_assoc.
    rewrite forallb_app, !List.filter_app, !length_app, Hp, Hp'.
    split_and!; [done..|lia|lia].
Qed.

Lemma lookups_within_seq {A B} (a1 s1 a2 s2 a s : nat) (m : M A) (k : A → M B) :
  lookups_within a1 s1 m → (∀ x, lookups_within a2 s2 (k x)) →
  a1 + a2 ≤ a → s1 + s2 ≤ s → lookups_within a s (m ≫= k).
Proof.
  intros Hm Hk Ha Hs.
  by apply (lookups_within_mono (a1 + a2) a (s1 + s2) s), lookups_within_bind.
Qed.

Lemma lookups_within_none {A} (a s : nat) (x : A) : lookups_within a s (mret x).
Proof.
  apply (lookups_within_mono 0 a 0 s); [lia..|apply lookups_within_ret].
Qed.

Lemma lookups_within_attempt {A} (a s : nat) (m : M A) :
  lookups_within a s m → lookups_within a s (attempt m).
Proof. intros Hm w. specialize (Hm w). unfold attempt. by destruct (m w). Qed.

Lemma lookups_within_ai {A} c (answer : nat → string + A) k :
  is_ai c = true → lookups_within 1 0 (call c answer k).
Proof.
  intros Hc w. unfold call. exists [c].
  destruct (answer (clock w)); cbn; destruct c; try done; cbn; split_and!; done || lia.
Qed.

Lemma lookups_within_search {A} q (answer : nat → string + A) k :
  lookups_within 0 1 (call (PexelsSearch q) answer k).
Proof.
  intros w. unfold call. exists [PexelsSearch q].
  destruct (answer (clock w)); cbn; split_and!; done || lia.
Qed.

End LogFacts.

(** ** The asset stage, further *)

Module AssetMore.

Import Script Props Observed Pipeline Handler Effects LogFacts ResolverFacts
  AssetFacts.

Section WithEnv.

Context (env : Env).

Lemma resolver_lookups (cue subject : string) :
  lookups_within 0 2 (getPexelsVideoForLine env cue subject).
Proof.
  unfold getPexelsVideoForLine.
  destruct (negb _).
  { apply (lookups_within_mono 0 0 0 2); [lia..|apply lookups_within_throw]. }
  apply (lookups_within_seq 0 2 0 0); [| |lia..].
  - apply lookups_within_attempt.
    apply (lookups_within_seq 0 1 0 1); [apply lookups_within_search| |lia..].
    intros res.
    apply (lookups_within_seq 0 1 0 0); [| |lia..];
      [|intros; apply lookups_within_none].
    destruct (no_videos res);
      [apply lookups_within_search|apply lookups_within_none].
  - intros [e|found]; apply lookups_within_none.
Qed.

Lemma generateAiContent_lookups (prompt : string) (first : bool) :
  lookups_within 2 0 (generateAiContent env prompt first).
Proof.
  assert (lookups_within 1 0 (askOpenAi env prompt)) as Hopen.
  { unfold askOpenAi. destruct (openaiConfigured env);
      [by apply lookups_within_ai|].
    apply (lookups_within_mono 0 1 0 0); [lia..|apply lookups_within_throw]. }
  unfold generateAiContent. destruct first.
  - apply (lookups_within_seq 1 0 1 0); [| |lia..].
    + by apply lookups_within_attempt, lookups_within_ai.
    + intros [e|text]; [done|apply lookups_within_none].
  - apply (lookups_within_mono 1 2 0 0); [lia..|done].
Qed.

Lemma primaryStep_lookups (subject mood line : string) (acc : Assets) :
  lookups_within 2 2 (primaryStep env subject mood line acc).
Proof.
  unfold primaryStep.
  apply (lookups_within_seq 2 0 0 2); [| |lia..].
  - apply lookups_within_attempt, generateAiContent_lookups.
  - intros [e|text]; [apply lookups_within_none|].
    apply (lookups_within_seq 0 2 0 0); [| |lia..].
    + apply lookups_within_attempt, resolver_lookups.
    + intros [e|[url|]]; try apply lookups_within_none.
      destruct (Js.truthy url); apply lookups_within_none.
Qed.

Lemma primaryLoop_lookups (subject mood : string) (lines : list string)
    (acc : Assets) :
  lookups_within (2 * length lines) (2 * length lines)
    (primaryLoop env subject mood lines acc).
Proof.
  revert acc. induction lines as [|line lines IH]; intros acc;
    cbn [primaryLoop]; [apply lookups_within_none|].
  apply (lookups_within_seq 2 2 (2 * length lines) (2 * length lines));
    [apply primaryStep_lookups|done|cbn [length]; lia..].
Qed.

Lemma fallbackLoop_lookups (subject : string) (searches urls : list string) :
  lookups_within 0 (2 * length searches)
    (fallbackLoop env subject searches urls).
Proof.
  revert urls. induction searches as [|search rest IH]; intros urls;
    cbn [fallbackLoop]; [apply lookups_within_none|].
  destruct (5 <=? length urls); [apply lookups_within_none|].
  apply (lookups_within_seq 0 2 0 (2 * length rest));
    [apply resolver_lookups|done|cbn [length]; lia..].
Qed.

Lemma collectAssets_lookups (subject mood : string) (overlays : list string) :
  lookups_within 10 24 (collectAssets env subject mood overlays).
Proof.
  unfold collectAssets.
  apply (lookups_within_seq 10 10 0 14); [| |lia..].
  - eapply lookups_within_mono; [..|apply primaryLoop_lookups];
      rewrite length_take; lia.
  - intros acc. destruct (_ <? 3); [|apply lookups_within_none].
    apply (lookups_within_seq 0 14 0 0); [| |lia..];
      [|intros; apply lookups_within_none].
    apply fallbackLoop_lookups.
Qed.

(** What the fallback loop returns extends what it was given. *)
Lemma fallbackLoop_extends (subject : string) (searches urls urls' : list string)
    (w w' : State) :
  fallbackLoop env subject searches urls w = (inr urls', w') →
  ∃ added,
    urls' = urls ++ added ∧ NoDup added ∧
    (∀ u, u ∈ added → (u ∉ urls) ∧ u ≠ EmptyString) ∧
    length added ≤ length searches.
Proof.
  revert urls w. induction searches as [|search rest IH]; intros urls w;
    cbn [fallbackLoop].
  - intros [= <- _]. exists []. rewrite app_nil_r.
    split_and!; [done|constructor|by intros ? ?%elem_of_nil|done].
  - destruct (5 <=? length urls).
    { intros [= <- _]. exists []. rewrite app_nil_r.
      split_and!; [done|constructor|by intros ? ?%elem_of_nil|cbn; lia]. }
    exec. destruct (getPexelsVideoForLine env search subject w)
      as [[e|found] w1]; [done|].
    intros (added & -> & Hnd & Hnew & Hlen)%IH.
    destruct found as [v|]; cbn [add_fallback] in *.
    + destruct (Js.truthy v) eqn:Hv; cbn [andb] in *.
      * unfold Js.array_includes in *. case_bool_decide as Hin; cbn [negb] in *.
        -- exists added. split_and!; [done..|cbn; lia].
        -- exists (v :: added). rewrite <- app_assoc. cbn. split_and!.
           ++ done.
           ++ apply NoDup_cons. split; [|done]. intros Hv'.
              destruct (Hnew v Hv') as [Hn _]. apply Hn. set_solver.
           ++ intros u [->|Hu]%elem_of_cons.
              ** split; [done|]. intros ->. by cbn in Hv.
              ** destruct (Hnew u Hu) as [Hn Hne]. split; [|done].
                 intros Hu'. apply Hn. set_solver.
           ++ lia.
      * exists added. split_and!; [done..|cbn; lia].
    + exists added. split_and!; [done..|cbn; lia].
Qed.

Lemma generateAiContent_only_ai (prompt : string) (first : bool) :
  only_calls is_ai (generateAiContent env prompt first).
Proof.
  assert (only_calls is_ai (askOpenAi env prompt)) as Hopen.
  { unfold askOpenAi. destruct (openaiConfigured env);
      [by apply only_calls_call|apply only_calls_throw]. }
  unfold generateAiContent. destruct first; [|done].
  apply only_calls_bind; [by apply only_calls_attempt, only_calls_call|].
  intros [e|text]; [done|apply only_calls_ret].
Qed.

Lemma primaryLoop_only_ai (subject mood : string) (lines : list string)
    (acc : Assets) :
  Js.truthy_opt (pexelsApiKey env) = false →
  only_calls is_ai (primaryLoop env subject mood lines acc).
Proof.
  intros Hk. revert acc. induction lines as [|line lines IH]; intros acc;
    cbn [primaryLoop]; [apply only_calls_ret|].
  apply only_calls_bind; [|done]. unfold primaryStep.
  apply only_calls_bind;
    [apply only_calls_attempt, generateAiContent_only_ai|].
  intros [e|text]; [apply only_calls_ret|].
  apply only_calls_bind.
  - apply only_calls_attempt. unfold getPexelsVideoForLine. rewrite Hk.
    apply only_calls_throw.
  - intros [e|[url|]]; try apply only_calls_ret.
    destruct (Js.truthy url); apply only_calls_ret.
Qed.

(** Without an API key the asset stage ends in the resolver's error,
    after text generation calls only. *)
Lemma collectAssets_key_missing (subject mood : string) (overlays : list string)
    (w : State) :
  Js.truthy_opt (pexelsApiKey env) = false →
  ∃ w',
    collectAssets env subject mood overlays w = (inl keyMissing, w') ∧
    files w' = files w ∧
    List.filter (λ c, negb (is_ai c)) (calls_since w w') = [].
Proof.
  intros Hk. unfold collectAssets.
  set (lines := take (min (length overlays) 5) overlays).
  destruct (primaryLoop_never_throws env subject mood lines (mkAssets [] []) w)
    as (acc & w1 & E).
  pose proof (primaryLoop_key_missing env _ _ _ _ _ _ _ Hk E) as Hu.
  cbn in Hu. exists w1. rewrite (bind_inr _ _ _ _ _ E), Hu.
  assert (fallbackLoop env subject (fallbackSearches subject mood) [] w1
          = (inl keyMissing, w1)) as Hfb.
  { unfold fallbackSearches. cbn [fallbackLoop].
    change (5 <=? length []) with false. cbn iota.
    by apply bind_inl, resolver_key_missing. }
  change (length [] <? 3) with true. cbn iota.
  rewrite (bind_inl _ _ _ _ _ Hfb).
  split; [done|].
  destruct (primaryLoop_only_ai subject mood lines (mkAssets [] []) Hk w)
    as [Hf (added & Ha & Hl)].
  rewrite E in Hf, Ha. cbn in Hf, Ha. split; [done|].
  rewrite (HandlerFacts.calls_since_app _ _ _ Ha).
  apply (filter_none is_ai); [done|]. by intros c ->.
Qed.

End WithEnv.

End AssetMore.

(** ** The renderer's success path and its file name *)

Module RenderMore.

Import Props Planned Pipeline Handler Effects.




Section WithEnv.
Context (env : Env).

(** With downloads and ffmpeg succeeding the renderer resolves, and its
    log is the downloads, the one run and the deletions. *)
Lemma createVideo_succeeds (urls overlays : list string)
    (voice music : option string) (subs : bool) (ts : Z) (product : string)
    (w : State) :
  (∀ k u, http_get env k u = inr tt) →
  (∀ k c, ffmpeg env k c = inr tt) →
  ∃ w',
    createVideoWithSubtitles env urls overlays voice music subs ts product w
    = (inr ("/videos/" +:+ outputFilename product ts), w') ∧
    calls w' =
      calls w ++ (HttpGet <$> urls) ++
        FfmpegRun (buildCommand (clipPaths env (length urls)) voice music
                     (videoOutputPath env product ts))
        :: (Unlink <$> clipPaths env (length urls) ++ input_if_present voice).
Proof.
  intros Hget Hff. unfold createVideoWithSubtitles.
  destruct (PlanFacts.downloadAll_succeeds env urls 0 [] w Hget)
    as (w1 & E & Hc).
  rewrite (bind_inr _ _ _ _ _ E). cbn [app] in *.
  fold (clipPaths env (length urls)).
  fold (videoOutputPath env product ts).
  exec. rewrite Hff.
  match goal with
  | |- context [cleanup env ?d ?v ?w0] =>
      destruct (PlanFacts.cleanup_log env d v w0) as (w2 & Ec & Hc2);
      rewrite Ec
  end.
  exists w2. split; [done|]. rewrite Hc2. cbn [write_file record calls].
  by rewrite Hc, <- !app_assoc.
Qed.

End WithEnv.

End RenderMore.

(** ** Claims about the script synthesizer *)

Import Script Props.

(** C8. For every valid subject (a single line of text that does not
    spell the placeholder) and every mood, the script the synthesizer
    returns consists of exactly ten lines, the handler reads exactly ten
    overlay lines from it, and every line whose template interpolates the
    subject contains the subject. *)
Theorem script_has_ten_lines (productName mood language : string) :
  valid_subject productName →
  let template := selectedTemplate (category productName) mood in
  let lines :=
    Js.split_lines (generateEnhancedScript productName mood language) in
  length lines = 10 ∧
  length (textOverlays (generateEnhancedScript productName mood language)) = 10 ∧
  lines = instantiate productName <$> template ∧
  ∀ i t line,
    template !! i = Some t → lines !! i = Some line →
    references_product t = true → Js.includes line productName = true.
Proof.
  intros Hp template lines.
  assert (lines = instantiate productName <$> template) as Hlines.
  { unfold lines, generateEnhancedScript.
    rewrite JsFacts.split_join.
    - by apply ScriptFacts.scriptLines_valid.
    - intros E. pose proof (ScriptFacts.scriptLines_length productName mood) as H.
      by rewrite E in H.
    - rewrite ScriptFacts.scriptLines_valid by done. apply Forall_fmap.
      eapply Forall_impl; [apply ScriptFacts.selectedTemplate_lines|].
      intros t Ht. by apply ScriptFacts.instantiated_single_line. }
  split_and!.
  - rewrite Hlines, length_fmap. apply ScriptFacts.selectedTemplate_length.
  - apply ScriptFacts.textOverlays_length.
  - done.
  - intros i t line Ht Hline Href. rewrite Hlines, list_lookup_fmap, Ht in Hline.
    injection Hline as <-. by apply ScriptFacts.instantiated_mentions.
Qed.

Lemma script_has_ten_lines_witness :
  length (Js.split_lines
            (generateEnhancedScript "Magic Glow Serum" "funny" "en")) = 10.
Proof.
  exact (proj1 (script_has_ten_lines "Magic Glow Serum" "funny" "en"
                  (conj eq_refl eq_refl))).
Defined.

(** Outside the valid subjects the substitution pass of the synthesizer
    is visible: a subject that spells the placeholder is rewritten in
    its line, with [$$] read as an escape. *)
Example subject_spelling_the_placeholder :
  scriptLines "$$a${productName}" "trendy" !! 1 =
    Some "LINE: $$a$a${productName} hits different bestie" ∧
  Js.includes "LINE: $$a$a${productName} hits different bestie"
    "$$a${productName}" = false.
Proof. split; vm_compute; reflexivity. Qed.

(** A subject with a line break yields more than ten lines of text, of
    which the handler still reads ten overlay lines. *)
Example subject_with_line_break :
  let subject := "Glow" +:+ String Js.newline "Serum" in
  length (Js.split_lines (generateEnhancedScript subject "funny" "en")) = 11 ∧
  length (textOverlays (generateEnhancedScript subject "funny" "en")) = 10.
Proof. split; vm_compute; reflexivity. Qed.

(** C9. When [viralScripts] has an entry for the lower-cased mood, but
    that entry has neither the product's category nor [default], the
    selected script is the [default] script of the mood "trendy". The
    moods "funny" and "exciting" are such entries for every product whose
    category is "default". *)
Theorem recognized_mood_crosses_to_trendy (productName mood : string)
    (moodScripts : gmap string (list string)) :
  viralScripts productName !! Js.toLowerCase mood = Some moodScripts →
  moodScripts !! category productName = None →
  moodScripts !! "default" = None →
  selectedScript productName mood = instantiate productName <$> trendy_default.
Proof.
  intros Hm Hc Hd. unfold selectedScript. rewrite Hm. cbn [or_else].
  rewrite Hc, Hd. cbn [or_else]. unfold viralScripts.
  rewrite lookup_fmap, ScriptFacts.trendy_lookup. cbn [fmap option_fmap option_map or_else].
  by rewrite lookup_fmap, lookup_singleton_eq.
Qed.

Lemma recognized_mood_crosses_to_trendy_witness :
  selectedScript "random gizmo" "funny" =
  instantiate "random gizmo" <$> trendy_default.
Proof.
  apply (recognized_mood_crosses_to_trendy "random gizmo" "funny"
           (default ∅ (viralScripts "random gizmo" !! "funny")));
    vm_compute; reflexivity.
Defined.

(** ** Claims about the asset resolver *)

Import Pipeline Handler Examples.

(** C1 (amended). From the candidates of the search it keeps (the first
    search, or the broadened one when the first found nothing), the
    resolver returns the link of the first HD encoding with a link of
    the FIRST candidate whose duration is in the window from 8 to 40
    seconds. It returns nothing when no candidate is in the window, and
    also when that first candidate has no such HD encoding: later
    candidates are not looked at. *)
Theorem resolver_picks_first_in_window (env : Env) (cue subject : string)
    (res : SearchData) (w : State) :
  Js.truthy_opt (pexelsApiKey env) = true →
  pexels env (clock w) (subject +:+ " " +:+ cue) = inr res →
  no_videos res = false →
  (getPexelsVideoForLine env cue subject w).1 = inr (pickVideo res) ∧
  (∀ empty w0,
     pexels env (clock w0) (subject +:+ " " +:+ cue) = inr empty →
     no_videos empty = true → pexels env (S (clock w0)) cue = inr res →
     (getPexelsVideoForLine env cue subject w0).1 = inr (pickVideo res)) ∧
  (∀ url, pickVideo res = Some url ↔
     ∃ before video after skipped hd rest,
       videos res = Some (before ++ video :: after) ∧
       Forall (λ v, in_window v = false) before ∧ in_window video = true ∧
       video_files video = skipped ++ hd :: rest ∧
       Forall (λ f, is_hd f = false) skipped ∧ is_hd hd = true ∧
       link hd = url) ∧
  (pickVideo res = None ↔
     Forall (λ v, in_window v = false) (default [] (videos res)) ∨
     ∃ before video after,
       videos res = Some (before ++ video :: after) ∧
       Forall (λ v, in_window v = false) before ∧ in_window video = true ∧
       Forall (λ f, is_hd f = false) (video_files video)).
Proof.
  intros Hk He Hn. split_and!.
  - by rewrite (ResolverFacts.resolver_primary_found env cue subject res w).
  - intros empty w0 H1 H2 H3.
    by rewrite (ResolverFacts.resolver_fallback_found env cue subject empty res w0).
  - apply ResolverFacts.pickVideo_Some.
  - apply ResolverFacts.pickVideo_None.
Qed.

Lemma resolver_picks_first_in_window_witness :
  (getPexelsVideoForLine same_video_env "unboxing" "Glow Serum" fresh).1 =
  inr (pickVideo (mkData (Some [with_hd]))).
Proof.
  exact (proj1 (resolver_picks_first_in_window same_video_env "unboxing"
                  "Glow Serum" (mkData (Some [with_hd])) fresh
                  eq_refl eq_refl eq_refl)).
Defined.

(** C1 as stated fails: the second candidate is in the window and has an
    HD encoding, the first is in the window without one, and the
    resolver returns nothing. *)
Lemma first_qualifying_candidate_missed :
  firstQualifying two_candidates = Some "https://videos.example/2-hd.mp4" ∧
  pickVideo two_candidates = None ∧
  (getPexelsVideoForLine
     (env_with (λ _ _, inr two_candidates) (λ _ _, inr tt))
     "unboxing" "Glow Serum" fresh).1 = inr None.
Proof. by vm_compute. Qed.

(** C7. With an API key, an error thrown by the search transport makes
    the resolver return nothing, for the first search and for the
    broadened one alike. In the per-line loop the failed cue leaves the
    urls as they were and the loop goes on; in the fallback loop the
    failed search leaves the urls as they were and the loop goes on; the
    per-line loop as a whole never throws. *)
Theorem transport_errors_are_absorbed (env : Env) (cue subject msg : string)
    (w : State) :
  Js.truthy_opt (pexelsApiKey env) = true →
  pexels env (clock w) (subject +:+ " " +:+ cue) = inl msg →
  getPexelsVideoForLine env cue subject w =
    (inr None, record (PexelsSearch (subject +:+ " " +:+ cue)) w) ∧
  (∀ res w0,
     pexels env (clock w0) (subject +:+ " " +:+ cue) = inr res →
     no_videos res = true → pexels env (S (clock w0)) cue = inl msg →
     (getPexelsVideoForLine env cue subject w0).1 = inr None) ∧
  (∀ mood line acc text w0,
     generateAiContent env (visualPrompt subject line mood) true w0
       = (inr text, w) →
     Js.trim text = cue →
     primaryStep env subject mood line acc w0 =
       (inr (push_term cue acc),
        record (PexelsSearch (subject +:+ " " +:+ cue)) w)) ∧
  (∀ rest urls,
     length urls < 5 →
     fallbackLoop env subject (cue :: rest) urls w =
       fallbackLoop env subject rest urls
         (record (PexelsSearch (subject +:+ " " +:+ cue)) w)) ∧
  (∀ mood lines acc, never_throws (primaryLoop env subject mood lines acc)).
Proof.
  intros Hk He.
  pose proof (ResolverFacts.resolver_primary_error env cue subject msg w Hk He)
    as Hr.
  split_and!.
  - done.
  - intros res w0 H1 H2 H3.
    by rewrite (ResolverFacts.resolver_fallback_error env cue subject msg res w0).
  - intros mood line acc text w0 Hai <-. unfold primaryStep. exec.
    rewrite Hai. cbn. by rewrite Hr.
  - intros rest urls Hlen. cbn [fallbackLoop].
    apply Nat.leb_gt in Hlen. rewrite Hlen.
    by rewrite (Effects.bind_inr _ _ _ _ _ Hr).
  - intros mood lines acc. apply AssetFacts.primaryLoop_never_throws.
Qed.

Lemma transport_errors_are_absorbed_witness :
  getPexelsVideoForLine offline_env "Glow Serum review" "Glow Serum" fresh =
  (inr None,
   record (PexelsSearch ("Glow Serum" +:+ " " +:+ "Glow Serum review")) fresh).
Proof.
  exact (proj1 (transport_errors_are_absorbed offline_env "Glow Serum review"
                  "Glow Serum" "Network Error" fresh eq_refl eq_refl)).
Defined.

(** ** Claims about the asset stage *)

(** C5 at a failing input. Every per-line search returns the same
    video; the five per-line results are all kept, so the accumulated
    list holds the same reference five times. *)
Lemma primary_results_are_not_deduplicated :
  ∃ assets,
    (collectAssets same_video_env "Glow Serum" "funny"
       (textOverlays (generateEnhancedScript "Glow Serum" "funny" "en"))
       fresh).1 = inr assets ∧
    videoUrls assets = replicate 5 "https://videos.example/2-hd.mp4" ∧
    ¬ NoDup (videoUrls assets).
Proof.
  eexists. split; [by vm_compute|]. split; [done|].
  cbn. intros H. apply NoDup_cons in H as [H _]. apply H. by left.
Qed.

(** C6. Once the request has a mood the handler reaches the asset
    stage. If that stage ends with no url, the response is the failure
    thrown for it and, from the start of the run to its end, no download
    and no ffmpeg run has been made and no file has changed. If it ends
    with a url, the run goes on to audio and video, and whatever failure
    follows is one of the voice, a download or ffmpeg. The stage itself
    throws only when the API key is missing, and then the per-line loop
    had found nothing. *)
Theorem zero_assets_is_fatal_and_only_that (env : Env) (req : Request)
    (m : string) (w : State) :
  mood req = Some m →
  let subject := finalProductName req in
  let language := default "en" (language req) in
  let fullScript := generateEnhancedScript subject m language in
  let overlays := textOverlays fullScript in
  let noAssets := mkError NoAssetsFound (noVideosMessage subject) in
  (∀ assets w',
     collectAssets env subject m overlays w = (inr assets, w') →
     videoUrls assets = [] →
     handler env req w =
       (Failure (errorMessage req noAssets) noAssets (now env), w') ∧
     List.filter is_render (calls_since w w') = [] ∧ files w' = files w) ∧
  (∀ assets w',
     collectAssets env subject m overlays w = (inr assets, w') →
     videoUrls assets ≠ [] →
     handler env req w =
       respond req (now env)
         (produce env subject m language
            (default "voice+music" (audioOption req))
            (default true (includeSubtitles req)) (now env) fullScript
            overlays assets w') ∧
     ∀ msg e ts wf,
       handler env req w = (Failure msg e ts, wf) → late_failure (kind e)) ∧
  (∀ e w',
     collectAssets env subject m overlays w = (inl e, w') →
     handler env req w = (Failure (errorMessage req e) e (now env), w') ∧
     kind e = PexelsKeyMissing ∧
     Js.truthy_opt (pexelsApiKey env) = false ∧
     ∃ acc w1,
       primaryLoop env subject m (take (min (length overlays) 5) overlays)
         (mkAssets [] []) w = (inr acc, w1) ∧
       videoUrls acc = []).
Proof.
  intros Hm subject language fullScript overlays noAssets.
  assert (handler env req w =
          respond req (now env)
            (afterScript env subject m language
               (default "voice+music" (audioOption req))
               (default true (includeSubtitles req)) (now env) fullScript
               overlays w)) as Hrun.
  { unfold handler. cbn zeta.
    by rewrite (HandlerFacts.generate_afterScript env _ req m _ Hm). }
  split_and!.
  - intros assets w' Hc Hz. rewrite Hrun. unfold afterScript.
    rewrite (Effects.bind_inr _ _ _ _ _ Hc), Hz. cbn. split; [done|].
    destruct (AssetFacts.collectAssets_only_calls env subject m overlays w)
      as [Hf (added & Ha & Hl)].
    rewrite Hc in Hf, Ha. cbn in Hf, Ha.
    rewrite (HandlerFacts.calls_since_app _ _ _ Ha).
    split; [by apply HandlerFacts.lookup_is_not_render|done].
  - intros assets w' Hc Hnz. rewrite Hrun. unfold afterScript.
    rewrite (Effects.bind_inr _ _ _ _ _ Hc).
    destruct (videoUrls assets) as [|u us] eqn:Eu; [done|]. cbn [length Nat.eqb].
    split; [done|]. intros msg e ts wf. unfold respond.
    destruct (produce env subject m language _ _ _ fullScript overlays assets w')
      as [[e'|payload] w2] eqn:Ep; [|done].
    intros [= _ <- _ _]. by eapply RenderFacts.produce_throws.
  - intros e w' Hc. rewrite Hrun. unfold afterScript.
    rewrite (Effects.bind_inl _ _ _ _ _ Hc). split; [done|].
    by apply AssetFacts.collectAssets_throws in Hc.
Qed.

Lemma zero_assets_is_fatal_and_only_that_witness :
  ∃ w',
    handler offline_env (request (Some "Glow Serum") (Some "funny")) fresh =
    (Failure
       (errorMessage (request (Some "Glow Serum") (Some "funny"))
          (mkError NoAssetsFound (noVideosMessage "Glow Serum")))
       (mkError NoAssetsFound (noVideosMessage "Glow Serum"))
       1700000000000, w') ∧
    List.filter is_render (calls_since fresh w') = [].
Proof.
  pose (run := collectAssets offline_env "Glow Serum" "funny"
                 (textOverlays (generateEnhancedScript "Glow Serum" "funny" "en"))
                 fresh).
  exists run.2.
  destruct (proj1 (zero_assets_is_fatal_and_only_that offline_env
                     (request (Some "Glow Serum") (Some "funny")) "funny"
                     fresh eq_refl)
              (mkAssets [] (replicate 5 "people unboxing product")) run.2)
    as (H1 & H2 & _); [by vm_compute|done|].
  by split.
Defined.

(** C10. A request without a product name and without a product url is
    not rejected: the subject is "Amazing Product", the script for it
    has its ten overlay lines, and the response is that of steps 2 to 4
    run for this subject. *)
Theorem missing_subject_defaults (env : Env) (req : Request) (w : State) :
  Js.truthy_opt (productName req) = false →
  Js.truthy_opt (productUrl req) = false →
  finalProductName req = "Amazing Product" ∧
  ∀ m, mood req = Some m →
    let language := default "en" (language req) in
    let fullScript := generateEnhancedScript "Amazing Product" m language in
    length (textOverlays fullScript) = 10 ∧
    handler env req w =
      respond req (now env)
        (afterScript env "Amazing Product" m language
           (default "voice+music" (audioOption req))
           (default true (includeSubtitles req)) (now env) fullScript
           (textOverlays fullScript) w).
Proof.
  intros Hn Hu.
  assert (finalProductName req = "Amazing Product") as Hs.
  { unfold finalProductName, or_string.
    destruct (productName req) as [n|]; cbn in Hn; rewrite ?Hn;
      destruct (productUrl req) as [u|]; cbn in Hu; by rewrite ?Hu. }
  split; [done|]. intros m Hm language fullScript.
  split; [apply ScriptFacts.textOverlays_length|].
  unfold handler. cbn zeta. rewrite Hs.
  by rewrite (HandlerFacts.generate_afterScript env _ req m _ Hm).
Qed.

Lemma missing_subject_defaults_witness :
  finalProductName (mkRequest (Some "") None (Some "trendy") None None None)
  = "Amazing Product".
Proof.
  exact (proj1 (missing_subject_defaults same_video_env
                  (mkRequest (Some "") None (Some "trendy") None None None)
                  fresh eq_refl eq_refl)).
Defined.

(** ** Claims about the composition planner and the renderer *)

Import Planned.

(** C2 as stated fails at three clips. The renderer, given three urls,
    runs ffmpeg once; each of the three video chains of that command is
    trimmed to the binary64 quotient [25 / 3], which is
    [4691249611844267 * 2^-49] seconds and not a third of 25: three such
    slices are [25 + 2^-49] seconds, not exactly 25. (Durations are
    counted in units of [2^-52] seconds.) *)
Lemma three_slices_exceed_total :
  let run :=
    createVideoWithSubtitles same_video_env three_urls [] None None true
      1700000000000 "Glow Serum" fresh in
  slices <$> commandsRun run.2 = [ replicate 3 (25 / 3)%float ] ∧
  in_ulps (25 / 3)%float = Some (4691249611844267 * 2 ^ 3)%Z ∧
  (3 * (4691249611844267 * 2 ^ 3) = seconds 25 + 8)%Z ∧
  (λ cmd, exact_sum (slices cmd)) <$> commandsRun run.2
    = [ Some (seconds 25 + 8)%Z ] ∧
  (seconds 25 + 8 ≠ seconds 25)%Z.
Proof.
  cbn zeta. split_and!; [vm_compute; reflexivity..|]. lia.
Qed.

(** C2 (amended). Steps 3 and 4 of the handler, with the speech service
    and the downloads answering. Whatever was resolved, the renderer is
    handed the first five urls in resolution order (all of them when
    there are at most five) and the rest is dropped: it downloads
    exactly these [n] urls, in order, and then runs ffmpeg once. In the
    command it runs, input [i] is the clip downloaded from the [i]-th
    kept url, there is one video chain per clip, chain [i] reads input
    [i] and is trimmed to the binary64 quotient [25 / n], and one concat
    joins the [n] chains. For [n] from 1 to 5 this slice is exactly
    [25 / n] seconds and the slices sum to exactly 25 seconds, except
    for [n = 3], where the three slices sum to [25 + 2^-49] seconds;
    added as binary64 numbers the slices give 25 for every such [n].
    The handler runs these steps on what the asset stage resolved, as
    soon as that is not empty, and then [n] is between 1 and 5. *)
Theorem renderer_gets_first_five_in_equal_slices (env : Env) (req : Request)
    (m : string) (assets : Assets) (w : State) :
  mood req = Some m →
  (∀ k u, http_get env k u = inr tt) →
  (∀ k v t, elevenlabs env k v t = inr tt) →
  let subject := finalProductName req in
  let language := default "en" (language req) in
  let fullScript := generateEnhancedScript subject m language in
  let overlays := textOverlays fullScript in
  let run :=
    produce env subject m language (default "voice+music" (audioOption req))
      (default true (includeSubtitles req)) (now env) fullScript overlays
      assets w in
  let resolved := videoUrls assets in
  let kept := take 5 resolved in
  let n := length kept in
  let slice := (25 / number_of_nat n)%float in
  (resolved = kept ++ drop 5 resolved ∧ n = min 5 (length resolved)) ∧
  (∃ cmd speech unlinks,
     calls run.2 =
       calls w ++ speech ++ (HttpGet <$> kept) ++ FfmpegRun cmd :: unlinks ∧
     forallb is_speech speech = true ∧ forallb is_unlink unlinks = true ∧
     take n (inputs cmd) = clipPaths env n ∧
     complexFilter cmd =
       ((λ i, VideoChain i slice) <$> seq 0 n) ++ [Concat n]
         ++ audio_part cmd ∧
     slices cmd = replicate n slice) ∧
  (1 ≤ n →
   ∃ x, in_ulps slice = Some x ∧
        (Z.of_nat n * x = seconds 25 + (if (n =? 3)%nat then 8 else 0))%Z ∧
        exact_sum (replicate n slice) = Some (Z.of_nat n * x)%Z ∧
        sum_floats (replicate n slice) = 25%float) ∧
  (∀ w0, collectAssets env subject m overlays w0 = (inr assets, w) →
         resolved ≠ [] →
         handler env req w0 = respond req (now env) run ∧ 1 ≤ n ≤ 5).
Proof.
  intros Hm Hget Hspeech subject language fullScript overlays run resolved
    kept n slice.
  assert (n = min 5 (length resolved)) as Hn.
  { unfold n, kept. rewrite length_take. lia. }
  split_and!.
  - unfold kept. by rewrite take_drop.
  - done.
  - destruct (PlanFacts.produce_log env subject m language
                (default "voice+music" (audioOption req))
                (default true (includeSubtitles req)) (now env) fullScript
                overlays assets w Hget Hspeech)
      as (voice & music & speech & unlinks & Hc & Hs & Hu).
    eexists _, speech, unlinks. split_and!; [exact Hc|done|done|..].
    + unfold buildCommand. cbn [inputs].
      rewrite take_app_length'; [done|]. by rewrite PlanFacts.clipPaths_length.
    + pose proof (PlanFacts.buildCommand_filters (clipPaths env n) voice music
                    (videoOutputPath env subject (now env))) as [H _].
      cbn zeta in H. by rewrite PlanFacts.clipPaths_length in H.
    + by rewrite RenderFacts.slices_buildCommand, PlanFacts.clipPaths_length.
  - intros H1. assert (1 ≤ n ≤ 5) as Hr by lia.
    destruct (PlanFacts.slice_exact n Hr) as (x & Hx & Hmul & Hsum).
    exists x. split_and!; [done..|]. by apply RenderFacts.slices_sum.
  - intros w0 Hassets Hne. split.
    + unfold handler. fold subject.
      rewrite (HandlerFacts.generate_afterScript env subject req m (now env) Hm).
      unfold afterScript. fold language fullScript overlays.
      rewrite (Effects.bind_inr _ _ _ _ _ Hassets).
      destruct (videoUrls assets) eqn:E; [done|]. cbn [length Nat.eqb].
      unfold run. done.
    + destruct resolved; [done|]. cbn [length] in Hn. lia.
Qed.

Lemma renderer_gets_first_five_in_equal_slices_witness :
  let run :=
    produce same_video_env "Glow Serum" "funny" "en" "voice+music" true
      1700000000000 (generateEnhancedScript "Glow Serum" "funny" "en")
      (textOverlays (generateEnhancedScript "Glow Serum" "funny" "en"))
      (mkAssets seven_urls []) fresh in
  ∃ cmd speech unlinks,
    calls run.2 =
      calls fresh ++ speech ++ (HttpGet <$> take 5 seven_urls)
        ++ FfmpegRun cmd :: unlinks ∧
    forallb is_speech speech = true ∧ forallb is_unlink unlinks = true ∧
    take 5 (inputs cmd) = clipPaths same_video_env 5 ∧
    complexFilter cmd =
      ((λ i, VideoChain i (25 / 5)%float) <$> seq 0 5) ++ [Concat 5]
        ++ audio_part cmd ∧
    slices cmd = replicate 5 (25 / 5)%float.
Proof.
  exact (proj1 (proj2
    (renderer_gets_first_five_in_equal_slices same_video_env
       (request (Some "Glow Serum") (Some "funny")) "funny"
       (mkAssets seven_urls []) fresh eq_refl
       (λ _ _, eq_refl) (λ _ _ _, eq_refl)))).
Defined.

(** C3. The renderer, with its downloads answering, runs ffmpeg once,
    on a command whose audio plan is one of four, chosen by whether a
    narration file and whether a music file is present. With [n] clips:
    both present, the narration is input [n] with gain 1.2, the music is
    input [n + 1] with gain 0.15, and the two are mixed with
    [duration=shortest]; narration alone, it is input [n] with gain 1.1;
    music alone, it is input [n] with gain 0.4; neither, the command has
    no audio input, no audio filter and maps no audio stream. Every
    track is trimmed to the total duration of 25 seconds. Nothing else
    enters the choice: any other run with as many clips and the same two
    presences has the same audio plan, whatever its urls, overlay lines,
    subtitle flag, time stamp, subject and paths. *)
Theorem audio_mix_follows_presence (env : Env) (videoUrls textOverlays : list string)
    (voiceAudioPath customMusicPath : option string) (includeSubtitles : bool)
    (timestamp : Z) (productName : string) (w : State) :
  (∀ k u, http_get env k u = inr tt) →
  let run :=
    createVideoWithSubtitles env videoUrls textOverlays voiceAudioPath
      customMusicPath includeSubtitles timestamp productName w in
  let n := length videoUrls in
  let clips := clipPaths env n in
  ∃ cmd unlinks,
    calls run.2 =
      calls w ++ (HttpGet <$> videoUrls) ++ FfmpegRun cmd :: unlinks ∧
    forallb is_unlink unlinks = true ∧
    match present voiceAudioPath, present customMusicPath with
    | Some narration, Some music =>
        inputs cmd = clips ++ [narration; music] ∧
        inputs cmd !! n = Some narration ∧
        inputs cmd !! (n + 1) = Some music ∧
        audio_part cmd =
          [ Volume n 1.2 25 "voice"; Volume (n + 1) 0.15 25 "music";
            Amix "voice" "music" 2 "shortest" "outa" ] ∧
        outputOptions cmd =
          ["-map"; "[outv]"; "-map"; "[outa]"] ++ encodingOptions
    | Some narration, None =>
        inputs cmd = clips ++ [narration] ∧
        inputs cmd !! n = Some narration ∧
        audio_part cmd = [ Volume n 1.1 25 "outa" ] ∧
        outputOptions cmd =
          ["-map"; "[outv]"; "-map"; "[outa]"] ++ encodingOptions
    | None, Some music =>
        inputs cmd = clips ++ [music] ∧
        inputs cmd !! n = Some music ∧
        audio_part cmd = [ Volume n 0.4 25 "outa" ] ∧
        outputOptions cmd =
          ["-map"; "[outv]"; "-map"; "[outa]"] ++ encodingOptions
    | None, None =>
        inputs cmd = clips ∧
        audio_part cmd = [] ∧
        outputOptions cmd = ["-map"; "[outv]"] ++ encodingOptions
    end ∧
    ∀ videoUrls' textOverlays' voiceAudioPath' customMusicPath'
      includeSubtitles' timestamp' productName' w' cmd',
      length videoUrls' = n →
      Js.truthy_opt voiceAudioPath' = Js.truthy_opt voiceAudioPath →
      Js.truthy_opt customMusicPath' = Js.truthy_opt customMusicPath →
      cmd' ∈ commandsRun
               (createVideoWithSubtitles env videoUrls' textOverlays'
                  voiceAudioPath' customMusicPath' includeSubtitles'
                  timestamp' productName' w').2 →
      cmd' ∈ commandsRun w' ∨ audio_part cmd' = audio_part cmd.
Proof.
  intros Hget run n clips.
  destruct (PlanFacts.createVideo_log env videoUrls textOverlays
              voiceAudioPath customMusicPath includeSubtitles timestamp
              productName w Hget) as (unlinks & Hc & Hu).
  eexists _, unlinks. split_and!; [exact Hc|done|..].
  - assert (length clips = n) as Hl by apply PlanFacts.clipPaths_length.
    fold n clips. rewrite RenderFacts.audio_part_buildCommand.
    unfold buildCommand. cbn [inputs outputOptions].
    unfold audioFilters. rewrite Hl.
    destruct voiceAudioPath as [v|], customMusicPath as [mu|];
      cbn [present input_if_present Js.truthy_opt];
      try destruct (Js.truthy v); try destruct (Js.truthy mu);
      cbn [andb fst snd app]; rewrite ?app_nil_r;
      split_and!; try done;
      (rewrite lookup_app_r by (rewrite Hl; lia)); rewrite Hl;
      first [by rewrite Nat.sub_diag | by replace (n + 1 - n) with 1 by lia].
  - intros urls' overlays' voice' music' subs' ts' product' w' cmd' Hl Hv Hm.
    destruct (PlanFacts.createVideo_log env urls' overlays' voice' music'
                subs' ts' product' w' Hget) as (unlinks' & Hc' & Hu').
    rewrite (PlanFacts.commandsRun_log _ _ _ _ _ Hc' Hu').
    intros [Hin | ->%list_elem_of_singleton]%elem_of_app; [by left|right].
    rewrite !RenderFacts.audio_part_buildCommand, !PlanFacts.clipPaths_length.
    unfold audioFilters. by rewrite Hl, Hv, Hm.
Qed.

Lemma audio_mix_follows_presence_witness :
  let run :=
    createVideoWithSubtitles same_video_env three_urls []
      (Some "/tmp/voice-1700000000000.mp3")
      (Some "/srv/backend/public/music/calm.mp3") true 1700000000000
      "Glow Serum" fresh in
  ∃ cmd unlinks,
    calls run.2 = calls fresh ++ (HttpGet <$> three_urls)
                    ++ FfmpegRun cmd :: unlinks ∧
    inputs cmd = clipPaths same_video_env 3
                   ++ [ "/tmp/voice-1700000000000.mp3";
                        "/srv/backend/public/music/calm.mp3" ] ∧
    audio_part cmd =
      [ Volume 3 1.2 25 "voice"; Volume 4 0.15 25 "music";
        Amix "voice" "music" 2 "shortest" "outa" ].
Proof.
  destruct (audio_mix_follows_presence same_video_env three_urls []
              (Some "/tmp/voice-1700000000000.mp3")
              (Some "/srv/backend/public/music/calm.mp3") true 1700000000000
              "Glow Serum" fresh (λ _ _, eq_refl))
    as (cmd & unlinks & Hc & _ & (Hi & _ & _ & Ha & _) & _).
  exists cmd, unlinks. split_and!; [exact Hc|exact Hi|exact Ha].
Defined.

(** C4 at a failing input. Five clips are downloaded, the narration is
    rendered and ffmpeg reports an error: the run fails, no deletion is
    attempted, and the five clips and the narration file are still on
    disk. *)
Lemma failed_render_leaves_temporary_files :
  let outcome :=
    handler render_fails_env (request (Some "Glow Serum") (Some "funny")) fresh in
  (∃ msg ts, outcome.1 = Failure msg (mkError RenderError "ffmpeg exited with code 1") ts) ∧
  List.filter is_unlink (calls outcome.2) = [] ∧
  files outcome.2 =
    list_to_set [ "/tmp/clip-0.mp4"; "/tmp/clip-1.mp4"; "/tmp/clip-2.mp4";
                  "/tmp/clip-3.mp4"; "/tmp/clip-4.mp4";
                  "/tmp/voice-1700000000000.mp3" ].
Proof.
  split_and!.
  - eexists _, _. vm_compute. reflexivity.
  - vm_compute. reflexivity.
  - vm_compute. reflexivity.
Qed.

(** * Further properties of the pipeline *)

(** ** Properties of the asset stage and of the handler around it *)

Import Observed Samples.



(** X2. The asset stage never leaves more than five urls, so the
    [slice(0, 5)] applied before rendering keeps all of them. *)
Theorem asset_stage_keeps_at_most_five (env : Env) (subject m : string)
    (overlays : list string) (assets : Assets) (w w' : State) :
  collectAssets env subject m overlays w = (inr assets, w') →
  length (videoUrls assets) ≤ 5 ∧
  clipsToRender (videoUrls assets) = videoUrls assets.
Proof.
  intros H%AssetFacts.collectAssets_length. split; [done|].
  unfold clipsToRender, Js.slice0. by apply take_ge.
Qed.

Lemma asset_stage_keeps_at_most_five_witness :
  length (videoUrls (value_of (mkAssets [] [])
    (collectAssets same_video_env "Glow Serum" "funny" glow_overlays fresh).1))
  ≤ 5.
Proof.
  exact (proj1 (asset_stage_keeps_at_most_five same_video_env "Glow Serum"
    "funny" glow_overlays _
    fresh (collectAssets same_video_env "Glow Serum" "funny" glow_overlays fresh).2
    ltac:(vm_compute; reflexivity))).
Defined.

(** X3. What the asset stage returns is what the per-line loop found,
    followed by what the fallback loop added: urls that are pairwise
    different, non-empty and not among the per-line ones. The fallback
    searches add nothing to the search terms, and when the per-line loop
    found three urls or more no fallback search is made at all. *)
Theorem fallback_only_appends_new_urls (env : Env) (subject m : string)
    (overlays : list string) (assets : Assets) (w w' : State) :
  collectAssets env subject m overlays w = (inr assets, w') →
  ∃ acc w1 added,
    primaryLoop env subject m (take (min (length overlays) 5) overlays)
      (mkAssets [] []) w = (inr acc, w1) ∧
    videoSearchTerms assets = videoSearchTerms acc ∧
    videoUrls assets = videoUrls acc ++ added ∧
    NoDup added ∧
    (∀ u, u ∈ added → (u ∉ videoUrls acc) ∧ u ≠ EmptyString) ∧
    (3 ≤ length (videoUrls acc) → added = [] ∧ w' = w1).
Proof.
  unfold collectAssets.
  destruct (AssetFacts.primaryLoop_never_throws env subject m
              (take (min (length overlays) 5) overlays) (mkAssets [] []) w)
    as (acc & w1 & E).
  rewrite (Effects.bind_inr _ _ _ _ _ E).
  destruct (length (videoUrls acc) <? 3) eqn:E3.
  - exec. destruct (fallbackLoop env subject _ (videoUrls acc) w1)
      as [[e|urls] w2] eqn:Ef; [done|].
    intros [= <- <-]. cbn.
    apply AssetMore.fallbackLoop_extends in Ef as (added & -> & Hnd & Hnew & _).
    exists acc, w1, added. split_and!; try done.
    apply Nat.ltb_lt in E3. lia.
  - intros [= <- <-]. exists acc, w1, []. rewrite app_nil_r.
    split_and!; try done; [constructor|by intros ? ?%elem_of_nil].
Qed.

Lemma fallback_only_appends_new_urls_witness :
  ∃ acc w1 added,
    primaryLoop reviews_only_env "Glow Serum" "funny"
      (take (min (length glow_overlays) 5) glow_overlays) (mkAssets [] []) fresh
      = (inr acc, w1) ∧
    videoUrls (value_of (mkAssets [] [])
      (collectAssets reviews_only_env "Glow Serum" "funny" glow_overlays fresh).1)
    = videoUrls acc ++ added ∧ NoDup added.
Proof.
  destruct (fallback_only_appends_new_urls reviews_only_env "Glow Serum"
    "funny" glow_overlays _
    fresh (collectAssets reviews_only_env "Glow Serum" "funny" glow_overlays fresh).2
    ltac:(vm_compute; reflexivity)) as (acc & w1 & added & H1 & _ & H2 & H3 & _).
  by exists acc, w1, added.
Defined.

(** X4. The asset stage changes no file and makes no call other than
    text generation calls and searches: at most 10 of the former (two
    providers for each of five lines) and at most 24 of the latter (two
    per line and two per fallback query). *)
Theorem asset_stage_call_budget (env : Env) (subject m : string)
    (overlays : list string) (w : State) :
  let w' := (collectAssets env subject m overlays w).2 in
  files w' = files w ∧
  List.filter (λ c, negb (is_lookup c)) (calls_since w w') = [] ∧
  length (List.filter is_ai (calls_since w w')) ≤ 10 ∧
  length (List.filter is_search (calls_since w w')) ≤ 24.
Proof.
  cbn zeta.
  destruct (AssetFacts.collectAssets_only_calls env subject m overlays w)
    as [Hf _].
  destruct (AssetMore.collectAssets_lookups env subject m overlays w)
    as (added & Ha & Hl & H1 & H2).
  rewrite (HandlerFacts.calls_since_app _ _ _ Ha). split_and!; try done.
  apply (LogFacts.filter_none is_lookup); [done|]. by intros c ->.
Qed.

(** X5. On a server without a Pexels key every request with a mood
    fails with the resolver's error, reported as "No videos found", after
    text generation calls only: no search, no speech, no download and no
    ffmpeg run is made and no file is written. *)
Theorem missing_api_key_fails_the_run (env : Env) (req : Request) (m : string)
    (w : State) :
  Js.truthy_opt (pexelsApiKey env) = false → mood req = Some m →
  ∃ w',
    handler env req w = (Failure (noVideosReport req) keyMissing (now env), w') ∧
    files w' = files w ∧
    List.filter (λ c, negb (is_ai c)) (calls_since w w') = [].
Proof.
  intros Hk Hm. unfold handler. cbn zeta.
  rewrite (HandlerFacts.generate_afterScript env _ req m _ Hm).
  unfold afterScript.
  destruct (AssetMore.collectAssets_key_missing env (finalProductName req) m
              (textOverlays (generateEnhancedScript (finalProductName req) m
                               (default "en" (language req)))) w Hk)
    as (w' & Hc & Hf & Hl).
  exists w'. by rewrite (Effects.bind_inl _ _ _ _ _ Hc).
Qed.

Lemma missing_api_key_fails_the_run_witness :
  ∃ w', handler keyless_env glow fresh
        = (Failure (noVideosReport glow) keyMissing 1700000000000, w').
Proof.
  destruct (missing_api_key_fails_the_run keyless_env glow "funny" fresh
              eq_refl eq_refl) as (w' & H & _).
  by exists w'.
Defined.

(** X6. One call of the resolver changes no file and makes no call, one
    search for subject and cue, or that search followed by one for the
    cue alone; the second search is made only when the first answered
    without videos. A link it returns is never empty. *)
Theorem resolver_searches_at_most_twice (env : Env) (cue subject : string)
    (w : State) :
  let r := getPexelsVideoForLine env cue subject w in
  let first := PexelsSearch (subject +:+ " " +:+ cue) in
  files r.2 = files w ∧
  (calls r.2 = calls w ∨ calls r.2 = calls w ++ [first] ∨
   calls r.2 = calls w ++ [first; PexelsSearch cue] ∧
   ∃ res, pexels env (clock w) (subject +:+ " " +:+ cue) = inr res ∧
          no_videos res = true) ∧
  ∀ url, r.1 = inr (Some url) → url ≠ EmptyString.
Proof.
  cbn zeta. unfold getPexelsVideoForLine, searchVideos.
  assert (∀ d url, pickVideo d = Some url → url ≠ EmptyString) as Hlink.
  { intros d url (b & v & a & s & hd & r & _ & _ & _ & _ & _ & Hhd & <-)
      %ResolverFacts.pickVideo_Some.
    unfold is_hd in Hhd. apply andb_true_iff in Hhd as [_ Ht].
    intros E. rewrite E in Ht. done. }
  destruct (negb _); [by split_and!; [|left|]|]. exec.
  destruct (pexels env (clock w) (subject +:+ " " +:+ cue)) as [msg|res] eqn:E1;
    cbn.
  { split_and!; [done|right; by left|done]. }
  destruct (no_videos res) eqn:En; cbn.
  - match goal with
    | |- context [pexels env ?k cue] =>
        destruct (pexels env k cue) as [msg|res'] eqn:E2; cbn
    end.
    + split_and!; [done| |done]. right; right. rewrite <- app_assoc.
      split; [done|]. by exists res.
    + split_and!; [done| |].
      * right; right. rewrite <- app_assoc. split; [done|]. by exists res.
      * intros url [= H]. by eapply Hlink.
  - split_and!; [done|right; by left|]. intros url [= H]. by eapply Hlink.
Qed.

(** ** Properties of the renderer, its file name and the voice table *)

(** X7. With the downloads and ffmpeg succeeding, the renderer resolves
    to the public path [/videos/<file name>] of its output. It makes, in
    this order, one download per url, one ffmpeg run that writes to
    [<dirname>/public/videos/<file name>], and one deletion for each
    downloaded clip and then for the narration file if there is one: the
    music file is never deleted, and a deletion that fails changes
    nothing of this. *)
Theorem successful_render_resolves_and_cleans (env : Env)
    (videoUrls textOverlays : list string)
    (voiceAudioPath customMusicPath : option string) (includeSubtitles : bool)
    (timestamp : Z) (productName : string) (w : State) :
  (∀ k u, http_get env k u = inr tt) →
  (∀ k c, ffmpeg env k c = inr tt) →
  let run :=
    createVideoWithSubtitles env videoUrls textOverlays voiceAudioPath
      customMusicPath includeSubtitles timestamp productName w in
  let clips := clipPaths env (length videoUrls) in
  let narration := option_list (present voiceAudioPath) in
  run.1 = inr ("/videos/" +:+ outputFilename productName timestamp) ∧
  ∃ cmd,
    calls run.2 =
      calls w ++ (HttpGet <$> videoUrls) ++ [FfmpegRun cmd]
        ++ (Unlink <$> clips ++ narration) ∧
    outputPath cmd =
      path_join (path_join (path_join (dirname env) "public") "videos")
        (outputFilename productName timestamp) ∧
    ∀ music, present customMusicPath = Some music →
             music ∉ clips → present voiceAudioPath ≠ Some music →
             Unlink music ∉ calls_since w run.2.
Proof.
  intros Hget Hff run clips narration.
  destruct (RenderMore.createVideo_succeeds env videoUrls textOverlays
              voiceAudioPath customMusicPath includeSubtitles timestamp
              productName w Hget Hff) as (w' & E & Hc).
  assert (input_if_present voiceAudioPath = narration) as Hn.
  { unfold narration. destruct voiceAudioPath as [p|]; [|done]. cbn.
    by destruct (Js.truthy p). }
  rewrite Hn in Hc. fold clips in Hc.
  unfold run. rewrite E. cbn [fst snd]. split; [done|].
  eexists. split_and!; [exact Hc|done|].
  intros music Hm Hclip Hvoice.
  rewrite (HandlerFacts.calls_since_app _ _ _ Hc).
  intros [Hin | Hin]%elem_of_app.
  - apply list_elem_of_fmap in Hin as (u & Hu & _). done.
  - apply elem_of_cons in Hin as [Hin | Hin]; [done|].
    apply list_elem_of_fmap in Hin as (p & [= <-] & Hp).
    apply elem_of_app in Hp as [Hp | Hp]; [done|].
    unfold narration in Hp. destruct (present voiceAudioPath) as [v|]; cbn in Hp.
    + apply list_elem_of_singleton in Hp as ->. done.
    + by apply elem_of_nil in Hp.
Qed.

Lemma successful_render_resolves_and_cleans_witness :
  (createVideoWithSubtitles same_video_env three_urls []
     (Some "/tmp/voice-1700000000000.mp3")
     (Some "/srv/backend/public/music/calm.mp3") true 1700000000000
     "Glow Serum" fresh).1
  = inr ("/videos/" +:+ outputFilename "Glow Serum" 1700000000000).
Proof.
  exact (proj1 (successful_render_resolves_and_cleans same_video_env
                  three_urls [] (Some "/tmp/voice-1700000000000.mp3")
                  (Some "/srv/backend/public/music/calm.mp3") true
                  1700000000000 "Glow Serum" fresh
                  (λ _ _, eq_refl) (λ _ _, eq_refl))).
Defined.



